(** * EventGuestsManager: participation state machine and ride matching

    A shallow embedding of [app/services/participants.py],
    [app/services/organizer.py], [app/services/rides.py] and of the routes
    of [app/main.py] on events, together with the tables of
    [app/models.py].

    The three tables are finite maps keyed by their primary key.  A
    service function is a computation over the open session: it reads and
    writes the tables and may raise.  The [with session.begin():] block of
    [app/main.py] commits on return and rolls back on an exception.

    The three service modules are read twice.  First with a session whose
    [exec] yields the mapped objects, as the [select] of sqlmodel makes it
    and as [app/main.py] has it: in this reading the services write, and
    what holds after every sequence of calls in it holds as well where the
    calls write less.  Then, in module [Stock], with the session of
    [app/db.py] and the [select] of sqlalchemy that the services import:
    there an item of a result is a row, and the first read of a column on
    it raises. *)

From Stdlib Require Import ZArith Lia String ssreflect.
From stdpp Require Import gmap strings list fin_maps sorting.

Local Open Scope string_scope.
Local Open Scope Z_scope.

(** ** app/enums.py *)

Module EventJoinPolicy.
Inductive t := OPEN | APPROVAL | OPEN_UNTIL_CAPACITY_THEN_APPROVAL.
#[global] Instance EventJoinPolicy_eq_dec : EqDecision t.
Proof. solve_decision. Defined.
End EventJoinPolicy.

Module EventStatus.
Inductive t := DRAFT | PUBLISHED | CANCELED.
#[global] Instance EventStatus_eq_dec : EqDecision t.
Proof. solve_decision. Defined.
End EventStatus.

Module ParticipationStatus.
Inductive t := APPROVED | PENDING | REJECTED | CANCELED.
#[global] Instance ParticipationStatus_eq_dec : EqDecision t.
Proof. solve_decision. Defined.
End ParticipationStatus.

Module RideMode.
Inductive t := NONE | NEED | OFFER.
#[global] Instance RideMode_eq_dec : EqDecision t.
Proof. solve_decision. Defined.
End RideMode.

Module RideMatchStatus.
Inductive t := PROPOSED | ACCEPTED | REJECTED | CANCELED.
#[global] Instance RideMatchStatus_eq_dec : EqDecision t.
Proof. solve_decision. Defined.
End RideMatchStatus.

(** ** app/models.py

    A [UUID] is a number; the primary key [id] of a row is its key in the
    table.  Python's [int] is [Z], [datetime] is a number of ticks.  Only
    the columns the services read or write are kept. *)

Abbreviation UUID := N (only parsing).

Module Event.
Record t := mk {
  created_by : UUID;
  capacity : option Z;
  join_policy : EventJoinPolicy.t;
  status : EventStatus.t }.
End Event.

Module EventParticipant.
Record t := mk {
  event_id : UUID;
  user_id : UUID;
  status : ParticipationStatus.t;
  ride_mode : RideMode.t;
  seats_offered : Z;
  pickup_area : option string;
  notes : option string;
  created_at : Z }.

Definition set_status (v : ParticipationStatus.t) (p : t) : t :=
  mk (event_id p) (user_id p) v (ride_mode p) (seats_offered p)
     (pickup_area p) (notes p) (created_at p).
Definition set_ride_mode (v : RideMode.t) (p : t) : t :=
  mk (event_id p) (user_id p) (status p) v (seats_offered p)
     (pickup_area p) (notes p) (created_at p).
Definition set_seats_offered (v : Z) (p : t) : t :=
  mk (event_id p) (user_id p) (status p) (ride_mode p) v
     (pickup_area p) (notes p) (created_at p).
Definition set_pickup_area (v : option string) (p : t) : t :=
  mk (event_id p) (user_id p) (status p) (ride_mode p) (seats_offered p)
     v (notes p) (created_at p).
Definition set_notes (v : option string) (p : t) : t :=
  mk (event_id p) (user_id p) (status p) (ride_mode p) (seats_offered p)
     (pickup_area p) v (created_at p).
End EventParticipant.

Module RideMatch.
Record t := mk {
  event_id : UUID;
  driver_participant_id : UUID;
  rider_participant_id : UUID;
  status : RideMatchStatus.t;
  created_by : UUID;
  created_at : Z }.

Definition set_status (v : RideMatchStatus.t) (m : t) : t :=
  mk (event_id m) (driver_participant_id m) (rider_participant_id m) v
     (created_by m) (created_at m).
End RideMatch.

(** ** The session: tables, exceptions, transactions *)

Record Session := mkSession {
  events : gmap N Event.t;
  event_participants : gmap N EventParticipant.t;
  ride_matches : gmap N RideMatch.t }.

Definition with_participants (ps : gmap N EventParticipant.t) (s : Session) : Session :=
  mkSession (events s) ps (ride_matches s).
Definition with_matches (ms : gmap N RideMatch.t) (s : Session) : Session :=
  mkSession (events s) (event_participants s) ms.

(** [HTTPException(status_code, detail)] of FastAPI, and the exceptions of
    the storage layer: [one_or_none()] on several rows, [one()] on no row,
    an insert under a primary key that is taken, a value out of the range
    of its column.  [IndexError], [AttributeError] and [TypeError] are
    Python's: a list index out of range, an attribute [name] that the
    object does not have or does not let one set, an argument of the
    wrong type. *)
Inductive Exception :=
| HTTPException (status_code : Z) (detail : string)
| MultipleResultsFound
| NoResultFound
| IntegrityError
| DataError
| IndexError
| AttributeError (name : string)
| TypeError.

Inductive Outcome (A : Type) :=
| Return (a : A)
| Raise (e : Exception).
Arguments Return {A} a.
Arguments Raise {A} e.

Definition Tx (A : Type) : Type := Session → Outcome A * Session.

Definition ret {A} (a : A) : Tx A := λ s, (Return a, s).
Definition raise {A} (e : Exception) : Tx A := λ s, (Raise e, s).
Definition bind {A B} (m : Tx A) (k : A → Tx B) : Tx B :=
  λ s, match m s with
       | (Return a, s') => k a s'
       | (Raise e, s') => (Raise e, s')
       end.
Definition lift {A} (o : Outcome A) : Tx A := λ s, (o, s).
Definition query {A} (f : Session → A) : Tx A := λ s, (Return (f s), s).
Definition modify (f : Session → Session) : Tx unit := λ s, (Return tt, f s).

Notation "'let*' x ':=' m 'in' k" := (bind m (λ x, k))
  (at level 10, x pattern, m at level 100, k at level 200).

(** [with session.begin(): ...]: commit when the body returns, roll back
    to the state at entry when it raises. *)
Definition transaction {A} (m : Tx A) : Tx A :=
  λ s, match m s with
       | (Return a, s') => (Return a, s')
       | (Raise e, _) => (Raise e, s)
       end.

(** [Result.one_or_none()] *)
Definition one_or_none {A} (rows : list A) : Outcome (option A) :=
  match rows with
  | [] => Return None
  | [r] => Return (Some r)
  | _ :: _ :: _ => Raise MultipleResultsFound
  end.

(** [Result.one()] *)
Definition one {A} (rows : list A) : Outcome A :=
  match rows with
  | [] => Raise NoResultFound
  | [r] => Return r
  | _ :: _ :: _ => Raise MultipleResultsFound
  end.

(** [select(Event).where(Event.id == event_id)]: a look-up by primary key
    has at most one row. *)
Definition select_event (event_id : UUID) (s : Session) : list Event.t :=
  option_list (events s !! event_id).

(** [select(EventParticipant).where(...)]: the rows that satisfy [P]. *)
Definition select_participants (P : N * EventParticipant.t → Prop)
    `{∀ r, Decision (P r)} (s : Session) : list (N * EventParticipant.t) :=
  filter P (map_to_list (event_participants s)).

(** [select(RideMatch).where(...)] *)
Definition select_matches (P : N * RideMatch.t → Prop)
    `{∀ r, Decision (P r)} (s : Session) : list (N * RideMatch.t) :=
  filter P (map_to_list (ride_matches s)).

(** [.order_by(EventParticipant.created_at.asc())] *)
Definition created_le (a b : N * EventParticipant.t) : Prop :=
  EventParticipant.created_at a.2 ≤ EventParticipant.created_at b.2.
#[global] Instance created_le_dec : RelDecision created_le.
Proof. intros a b. unfold created_le. apply _. Defined.
Definition order_by_created_at (rows : list (N * EventParticipant.t)) :
    list (N * EventParticipant.t) :=
  merge_sort created_le rows.

(** Writing an attribute of a loaded row: the row is flushed before the
    next statement runs, so later queries of the transaction see it. *)
Definition write_participant (id : UUID) (p : EventParticipant.t) : Tx unit :=
  modify (λ s, with_participants (<[id := p]> (event_participants s)) s).
Definition write_match (id : UUID) (m : RideMatch.t) : Tx unit :=
  modify (λ s, with_matches (<[id := m]> (ride_matches s)) s).

(** [session.add(row)] of a new row under the primary key drawn by
    [uuid4]. *)
Definition add_participant (id : UUID) (p : EventParticipant.t) : Tx unit :=
  λ s, match event_participants s !! id with
       | Some _ => (Raise IntegrityError, s)
       | None => (Return tt, with_participants (<[id := p]> (event_participants s)) s)
       end.
Definition add_match (id : UUID) (m : RideMatch.t) : Tx unit :=
  λ s, match ride_matches s !! id with
       | Some _ => (Raise IntegrityError, s)
       | None => (Return tt, with_matches (<[id := m]> (ride_matches s)) s)
       end.

(** ** app/services/participants.py *)

Definition _normalize_ride (ride_mode : RideMode.t) (seats_offered : option Z) :
    Outcome (RideMode.t * Z) :=
  let seats_offered := match seats_offered with None => 0 | Some n => n end in
  if bool_decide (ride_mode = RideMode.OFFER) then
    if bool_decide (seats_offered < 1) then
      Raise (HTTPException 400 "seats_offered must be >= 1 when ride_mode=OFFER")
    else Return (ride_mode, seats_offered)
  else if bool_decide (seats_offered ≠ 0) then
    Raise (HTTPException 400 "seats_offered must be 0 unless ride_mode=OFFER")
  else Return (ride_mode, 0).

Definition is_approved_in (event_id : UUID) (r : N * EventParticipant.t) : Prop :=
  EventParticipant.event_id r.2 = event_id ∧
  EventParticipant.status r.2 = ParticipationStatus.APPROVED.
#[global] Instance is_approved_in_dec e r : Decision (is_approved_in e r).
Proof. unfold is_approved_in. apply _. Defined.

Definition _count_approved (event_id : UUID) (s : Session) : Z :=
  Z.of_nat (length (select_participants (is_approved_in event_id) s)).

Definition is_full (event : Event.t) (approved_count : Z) : bool :=
  match Event.capacity event with
  | Some c => bool_decide (c ≤ approved_count)
  | None => false
  end.

Definition _resolve_join_status (event : Event.t) (approved_count : Z) :
    Outcome ParticipationStatus.t :=
  if bool_decide (Event.status event ≠ EventStatus.PUBLISHED) then
    Raise (HTTPException 400 "Event is not published")
  else if bool_decide (Event.status event = EventStatus.CANCELED) then
    Raise (HTTPException 400 "Event is canceled")
  else
    let is_full := is_full event approved_count in
    match Event.join_policy event with
    | EventJoinPolicy.OPEN =>
        if is_full then Raise (HTTPException 400 "Event is full")
        else Return ParticipationStatus.APPROVED
    | EventJoinPolicy.APPROVAL => Return ParticipationStatus.PENDING
    | EventJoinPolicy.OPEN_UNTIL_CAPACITY_THEN_APPROVAL =>
        Return (if is_full then ParticipationStatus.PENDING
                else ParticipationStatus.APPROVED)
    end.

Definition is_of_user (event_id user_id : UUID) (r : N * EventParticipant.t) : Prop :=
  EventParticipant.event_id r.2 = event_id ∧ EventParticipant.user_id r.2 = user_id.
#[global] Instance is_of_user_dec e u r : Decision (is_of_user e u r).
Proof. unfold is_of_user. apply _. Defined.

Definition join_event (event_id user_id : UUID) (ride_mode : RideMode.t)
    (seats_offered : option Z) (pickup_area notes : option string)
    (new_id : UUID) (now : Z) : Tx (N * EventParticipant.t) :=
  let* event := query (select_event event_id) in
  let* event := lift (one_or_none event) in
  match event with
  | None => raise (HTTPException 404 "Event not found")
  | Some event =>
    if bool_decide (Event.status event = EventStatus.CANCELED) then
      raise (HTTPException 400 "Event is canceled")
    else
      let* approved := query (_count_approved event_id) in
      let* status := lift (_resolve_join_status event approved) in
      let* rs := lift (_normalize_ride ride_mode seats_offered) in
      let ride_mode := rs.1 in
      let seats_offered := rs.2 in
      let* rows := query (select_participants (is_of_user event_id user_id)) in
      let* p := lift (one_or_none rows) in
      match p with
      | None =>
          let p := EventParticipant.mk event_id user_id status ride_mode
                     seats_offered pickup_area notes now in
          let* _ := add_participant new_id p in
          ret (new_id, p)
      | Some (id, p) =>
          let p := EventParticipant.set_status status p in
          let p := EventParticipant.set_ride_mode ride_mode p in
          let p := EventParticipant.set_seats_offered seats_offered p in
          let p := if pickup_area is Some _
                   then EventParticipant.set_pickup_area pickup_area p else p in
          let p := if notes is Some _
                   then EventParticipant.set_notes notes p else p in
          let* _ := write_participant id p in
          ret (id, p)
      end
  end.

(** The [update(RideMatch).where(...).values(status=CANCELED)] statement of
    [leave_event] and [update_my_participation]. *)
Definition is_active_match_of (event_id pid : UUID) (m : RideMatch.t) : Prop :=
  RideMatch.event_id m = event_id ∧
  (RideMatch.status m = RideMatchStatus.PROPOSED ∨
   RideMatch.status m = RideMatchStatus.ACCEPTED) ∧
  (RideMatch.driver_participant_id m = pid ∨ RideMatch.rider_participant_id m = pid).
#[global] Instance is_active_match_of_dec e p m : Decision (is_active_match_of e p m).
Proof. unfold is_active_match_of. apply _. Defined.

Definition cancel_if_active (event_id pid : UUID) (m : RideMatch.t) : RideMatch.t :=
  if bool_decide (is_active_match_of event_id pid m)
  then RideMatch.set_status RideMatchStatus.CANCELED m else m.

Definition cancel_active_matches (event_id pid : UUID) : Tx unit :=
  modify (λ s, with_matches (cancel_if_active event_id pid <$> ride_matches s) s).

Definition is_pending_in (event_id : UUID) (r : N * EventParticipant.t) : Prop :=
  EventParticipant.event_id r.2 = event_id ∧
  EventParticipant.status r.2 = ParticipationStatus.PENDING.
#[global] Instance is_pending_in_dec e r : Decision (is_pending_in e r).
Proof. unfold is_pending_in. apply _. Defined.

(** [event.capacity] used as a condition: set and not zero. *)
Definition truthy (capacity : option Z) : bool :=
  match capacity with
  | Some c => bool_decide (c ≠ 0)
  | None => false
  end.

Definition leave_event (event_id user_id : UUID) : Tx (N * EventParticipant.t) :=
  let* rows := query (select_participants (is_of_user event_id user_id)) in
  let* p := lift (one_or_none rows) in
  match p with
  | None => raise (HTTPException 404 "Not joined")
  | Some (id, p) =>
    let p := EventParticipant.set_status ParticipationStatus.CANCELED p in
    let p := EventParticipant.set_ride_mode RideMode.NONE p in
    let p := EventParticipant.set_seats_offered 0 p in
    let* _ := write_participant id p in
    let* _ := cancel_active_matches event_id id in
    let* event := query (select_event event_id) in
    let* event := lift (one event) in
    let* _ :=
      if bool_decide (Event.join_policy event =
                      EventJoinPolicy.OPEN_UNTIL_CAPACITY_THEN_APPROVAL)
         && truthy (Event.capacity event) then
        let* approved := query (_count_approved event_id) in
        if bool_decide (approved < default 0 (Event.capacity event)) then
          let* pending := query (select_participants (is_pending_in event_id)) in
          let* oldest_pending := lift (one_or_none (order_by_created_at pending)) in
          match oldest_pending with
          | Some (oid, o) =>
              write_participant oid
                (EventParticipant.set_status ParticipationStatus.APPROVED o)
          | None => ret tt
          end
        else ret tt
      else ret tt in
    ret (id, p)
  end.

Definition update_my_participation (event_id user_id : UUID)
    (ride_mode : option RideMode.t) (seats_offered : option Z)
    (pickup_area notes : option string) : Tx (N * EventParticipant.t) :=
  let* rows := query (select_participants (is_of_user event_id user_id)) in
  let* p := lift (one_or_none rows) in
  match p with
  | None => raise (HTTPException 404 "Not joined")
  | Some (id, p) =>
    if bool_decide (EventParticipant.status p ≠ ParticipationStatus.APPROVED ∧
                    EventParticipant.status p ≠ ParticipationStatus.PENDING) then
      raise (HTTPException 400 "Cannot update in this status")
    else
      let prev_mode := EventParticipant.ride_mode p in
      let new_mode := default (EventParticipant.ride_mode p) ride_mode in
      let new_seats := default (EventParticipant.seats_offered p) seats_offered in
      let* rs := lift (_normalize_ride new_mode (Some new_seats)) in
      let p := EventParticipant.set_ride_mode rs.1 p in
      let p := EventParticipant.set_seats_offered rs.2 p in
      let p := if pickup_area is Some _
               then EventParticipant.set_pickup_area pickup_area p else p in
      let p := if notes is Some _
               then EventParticipant.set_notes notes p else p in
      let* _ := write_participant id p in
      let* _ :=
        if bool_decide (prev_mode ≠ EventParticipant.ride_mode p)
        then cancel_active_matches event_id id else ret tt in
      ret (id, p)
  end.

(** ** app/services/organizer.py *)

(** [select(EventParticipant).where(EventParticipant.id == participant_id,
    EventParticipant.event_id == event_id)]: a look-up by primary key. *)
Definition select_participant_in (participant_id event_id : UUID) (s : Session) :
    list (N * EventParticipant.t) :=
  match event_participants s !! participant_id with
  | Some p =>
      if bool_decide (EventParticipant.event_id p = event_id)
      then [(participant_id, p)] else []
  | None => []
  end.

Definition set_participant_status (event_id organizer_id participant_id : UUID)
    (next_status : ParticipationStatus.t) : Tx (N * EventParticipant.t) :=
  if bool_decide (next_status ≠ ParticipationStatus.APPROVED ∧
                  next_status ≠ ParticipationStatus.REJECTED) then
    raise (HTTPException 400 "Invalid status change")
  else
    let* event := query (select_event event_id) in
    let* event := lift (one_or_none event) in
    match event with
    | None => raise (HTTPException 404 "Event not found")
    | Some event =>
      if bool_decide (Event.created_by event ≠ organizer_id) then
        raise (HTTPException 403 "Forbidden")
      else
        let* rows := query (select_participant_in participant_id event_id) in
        let* p := lift (one_or_none rows) in
        match p with
        | None => raise (HTTPException 404 "Participant not found")
        | Some (id, p) =>
          let* _ :=
            if bool_decide (next_status = ParticipationStatus.APPROVED) then
              match Event.capacity event with
              | Some capacity =>
                  let* approved_count := query (_count_approved event_id) in
                  if bool_decide (capacity ≤ approved_count) then
                    raise (HTTPException 400 "Cannot approve: event is full")
                  else ret tt
              | None => ret tt
              end
            else ret tt in
          let p := EventParticipant.set_status next_status p in
          let* _ := write_participant id p in
          ret (id, p)
        end
    end.

Record EventStatsOut := mkStats {
  approved_count : Z;
  pending_count : Z;
  rejected_count : Z;
  canceled_count : Z;
  need_ride_count : Z;
  offer_ride_count : Z;
  seats_offered_total : Z;
  seats_accepted_total : Z;
  seats_remaining_total : Z;
  unmatched_riders_count : Z }.

Definition has_status_in (event_id : UUID) (status : ParticipationStatus.t)
    (r : N * EventParticipant.t) : Prop :=
  EventParticipant.event_id r.2 = event_id ∧ EventParticipant.status r.2 = status.
#[global] Instance has_status_in_dec e st r : Decision (has_status_in e st r).
Proof. unfold has_status_in. apply _. Defined.

Definition is_approved_mode_in (event_id : UUID) (mode : RideMode.t)
    (r : N * EventParticipant.t) : Prop :=
  EventParticipant.event_id r.2 = event_id ∧
  EventParticipant.status r.2 = ParticipationStatus.APPROVED ∧
  EventParticipant.ride_mode r.2 = mode.
#[global] Instance is_approved_mode_in_dec e md r : Decision (is_approved_mode_in e md r).
Proof. unfold is_approved_mode_in. apply _. Defined.

Definition is_accepted_in (event_id : UUID) (r : N * RideMatch.t) : Prop :=
  RideMatch.event_id r.2 = event_id ∧ RideMatch.status r.2 = RideMatchStatus.ACCEPTED.
#[global] Instance is_accepted_in_dec e r : Decision (is_accepted_in e r).
Proof. unfold is_accepted_in. apply _. Defined.

(** [func.coalesce(func.sum(...), 0)] *)
Definition sum_coalesce (xs : list Z) : Z := foldr Z.add 0 xs.

(** ** app/services/rides.py *)

Definition is_accepted_of (event_id driver_pid : UUID) (r : N * RideMatch.t) : Prop :=
  RideMatch.event_id r.2 = event_id ∧
  RideMatch.driver_participant_id r.2 = driver_pid ∧
  RideMatch.status r.2 = RideMatchStatus.ACCEPTED.
#[global] Instance is_accepted_of_dec e d r : Decision (is_accepted_of e d r).
Proof. unfold is_accepted_of. apply _. Defined.

Definition _accepted_count (event_id driver_pid : UUID) (s : Session) : Z :=
  Z.of_nat (length (select_matches (is_accepted_of event_id driver_pid) s)).

Definition _ensure_compatible_and_seat (event_id driver_pid rider_pid : UUID) : Tx unit :=
  let* rows := query (select_participant_in driver_pid event_id) in
  let* driver := lift (one_or_none rows) in
  let* rows := query (select_participant_in rider_pid event_id) in
  let* rider := lift (one_or_none rows) in
  match driver, rider with
  | Some (driver_id, driver), Some (rider_id, rider) =>
    if bool_decide (driver_id = rider_id) then
      raise (HTTPException 400 "Driver and rider must be different")
    else if bool_decide (EventParticipant.status driver ≠ ParticipationStatus.APPROVED ∨
                         EventParticipant.status rider ≠ ParticipationStatus.APPROVED) then
      raise (HTTPException 400 "Both participants must be approved")
    else if bool_decide (EventParticipant.ride_mode driver ≠ RideMode.OFFER) then
      raise (HTTPException 400 "Driver is not offering")
    else if bool_decide (EventParticipant.ride_mode rider ≠ RideMode.NEED) then
      raise (HTTPException 400 "Rider does not need a ride")
    else
      let* accepted := query (_accepted_count event_id driver_id) in
      if bool_decide (EventParticipant.seats_offered driver ≤ accepted) then
        raise (HTTPException 400 "No seats remaining for this driver")
      else ret tt
  | _, _ => raise (HTTPException 404 "Driver or rider not found")
  end.

Definition create_match (event_id created_by driver_pid rider_pid : UUID)
    (new_id : UUID) (now : Z) : Tx (N * RideMatch.t) :=
  let* _ := _ensure_compatible_and_seat event_id driver_pid rider_pid in
  let m := RideMatch.mk event_id driver_pid rider_pid RideMatchStatus.PROPOSED
             created_by now in
  let* _ := add_match new_id m in
  ret (new_id, m).

(** [select(RideMatch).where(RideMatch.id == match_id)] and
    [select(EventParticipant).where(EventParticipant.id == ...)]:
    look-ups by primary key. *)
Definition select_match (match_id : UUID) (s : Session) : list (N * RideMatch.t) :=
  option_list ((λ m, (match_id, m)) <$> ride_matches s !! match_id).
Definition select_participant (participant_id : UUID) (s : Session) :
    list (N * EventParticipant.t) :=
  option_list ((λ p, (participant_id, p)) <$> event_participants s !! participant_id).

(** [user_id in {m.created_by, driver.user_id if driver else None,
    rider.user_id if rider else None}] *)
Definition allowed (user_id : UUID) (m : RideMatch.t)
    (driver rider : option (N * EventParticipant.t)) : bool :=
  bool_decide (user_id = RideMatch.created_by m)
  || (if driver is Some d then bool_decide (user_id = EventParticipant.user_id d.2) else false)
  || (if rider is Some r then bool_decide (user_id = EventParticipant.user_id r.2) else false).

Definition update_match_status (match_id user_id : UUID)
    (next_status : RideMatchStatus.t) : Tx (N * RideMatch.t) :=
  if bool_decide (next_status ≠ RideMatchStatus.ACCEPTED ∧
                  next_status ≠ RideMatchStatus.REJECTED ∧
                  next_status ≠ RideMatchStatus.CANCELED) then
    raise (HTTPException 400 "Invalid next status")
  else
    let* rows := query (select_match match_id) in
    let* m := lift (one_or_none rows) in
    match m with
    | None => raise (HTTPException 404 "Match not found")
    | Some (id, m) =>
      let* rows := query (select_participant (RideMatch.driver_participant_id m)) in
      let* driver := lift (one_or_none rows) in
      let* rows := query (select_participant (RideMatch.rider_participant_id m)) in
      let* rider := lift (one_or_none rows) in
      if negb (allowed user_id m driver rider) then
        raise (HTTPException 403 "Forbidden")
      else
        let* _ :=
          if bool_decide (next_status = RideMatchStatus.ACCEPTED) then
            _ensure_compatible_and_seat (RideMatch.event_id m)
              (RideMatch.driver_participant_id m) (RideMatch.rider_participant_id m)
          else ret tt in
        let m := RideMatch.set_status next_status m in
        let* _ := write_match id m in
        ret (id, m)
    end.

Definition suggestions_drivers (event_id : UUID) (s : Session) :=
  order_by_created_at (select_participants (is_approved_mode_in event_id RideMode.OFFER) s).
Definition suggestions_riders (event_id : UUID) (s : Session) :=
  order_by_created_at (select_participants (is_approved_mode_in event_id RideMode.NEED) s).

(** ** Sequences of operations *)

Inductive Op :=
| Join (event_id user_id : UUID) (ride_mode : RideMode.t) (seats_offered : option Z)
    (pickup_area notes : option string) (new_id : UUID) (now : Z)
| Leave (event_id user_id : UUID)
| UpdateMyParticipation (event_id user_id : UUID) (ride_mode : option RideMode.t)
    (seats_offered : option Z) (pickup_area notes : option string)
| SetParticipantStatus (event_id organizer_id participant_id : UUID)
    (next_status : ParticipationStatus.t)
| CreateMatch (event_id created_by driver_pid rider_pid : UUID) (new_id : UUID) (now : Z)
| UpdateMatchStatus (match_id user_id : UUID) (next_status : RideMatchStatus.t).

(** The tables after the transaction of [m]. *)
Definition commit {A} (m : Tx A) (s : Session) : Session := (transaction m s).2.

Definition step (op : Op) (s : Session) : Session :=
  match op with
  | Join e u rm so pa nt new_id now => commit (join_event e u rm so pa nt new_id now) s
  | Leave e u => commit (leave_event e u) s
  | UpdateMyParticipation e u rm so pa nt => commit (update_my_participation e u rm so pa nt) s
  | SetParticipantStatus e o pid st => commit (set_participant_status e o pid st) s
  | CreateMatch e u d r new_id now => commit (create_match e u d r new_id now) s
  | UpdateMatchStatus mid u st => commit (update_match_status mid u st) s
  end.

Definition run (ops : list Op) (s : Session) : Session :=
  foldl (λ s op, step op s) s ops.

(** ** app/services/organizer.py: the rows of an event

    [.where(EventParticipant.event_id == event_id)], the filter of
    [list_participants]. *)

Definition is_in_event (event_id : UUID) (r : N * EventParticipant.t) : Prop :=
  EventParticipant.event_id r.2 = event_id.
#[global] Instance is_in_event_dec e r : Decision (is_in_event e r).
Proof. unfold is_in_event. apply _. Defined.

(** ** app/services/rides.py: the listing of matches *)

Definition is_match_of_event (event_id : UUID) (r : N * RideMatch.t) : Prop :=
  RideMatch.event_id r.2 = event_id.
#[global] Instance is_match_of_event_dec e r : Decision (is_match_of_event e r).
Proof. unfold is_match_of_event. apply _. Defined.

(** [.order_by(RideMatch.created_at.desc())] *)
Definition match_created_ge (a b : N * RideMatch.t) : Prop :=
  RideMatch.created_at b.2 ≤ RideMatch.created_at a.2.
#[global] Instance match_created_ge_dec : RelDecision match_created_ge.
Proof. intros a b. unfold match_created_ge. apply _. Defined.

Definition list_matches (event_id : UUID) (s : Session) : list (N * RideMatch.t) :=
  merge_sort match_created_ge (select_matches (is_match_of_event event_id) s).

(** ** app/main.py: creating, publishing and reading an event

    These routes commit by themselves; they write one row after their
    checks, so nothing is left to roll back when they raise. *)

Definition with_events (es : gmap N Event.t) (s : Session) : Session :=
  mkSession es (event_participants s) (ride_matches s).

(** The columns of [EventCreate] that the services read. *)
Record EventCreate := mkEventCreate {
  payload_capacity : option Z;
  payload_join_policy : EventJoinPolicy.t }.

(** The INTEGER columns of the tables hold 32 bits. *)
Definition int4 (n : Z) : Prop := -2147483648 ≤ n ≤ 2147483647.
#[global] Instance int4_dec n : Decision (int4 n).
Proof. unfold int4. apply _. Defined.

(** [session.add(e); session.commit()] of a new event: a capacity that
    does not fit the INTEGER column raises [DataError], a primary key that
    is taken [IntegrityError]. *)
Definition add_event (id : UUID) (e : Event.t) : Tx unit :=
  λ s, if (if Event.capacity e is Some c then bool_decide (int4 c) else true) then
         match events s !! id with
         | Some _ => (Raise IntegrityError, s)
         | None => (Return tt, with_events (<[id := e]> (events s)) s)
         end
       else (Raise DataError, s).
Definition write_event (id : UUID) (e : Event.t) : Tx unit :=
  modify (λ s, with_events (<[id := e]> (events s)) s).

Definition create_event (payload : EventCreate) (user_id : UUID) (new_id : UUID) :
    Tx (N * Event.t) :=
  let e := Event.mk user_id (payload_capacity payload) (payload_join_policy payload)
             EventStatus.DRAFT in
  let* _ := add_event new_id e in
  ret (new_id, e).

Definition publish_event (event_id user_id : UUID) : Tx (N * Event.t) :=
  let* e := query (select_event event_id) in
  let* e := lift (one_or_none e) in
  match e with
  | None => raise (HTTPException 404 "Event not found")
  | Some e =>
      if bool_decide (Event.created_by e ≠ user_id) then
        raise (HTTPException 403 "Forbidden")
      else
        let e := Event.mk (Event.created_by e) (Event.capacity e)
                   (Event.join_policy e) EventStatus.PUBLISHED in
        let* _ := write_event event_id e in
        ret (event_id, e)
  end.

(** The calls of the interface, the six operations on participation and
    matches and the two on events. *)
Inductive ApiOp :=
| Service (op : Op)
| CreateEvent (payload : EventCreate) (user_id : UUID) (new_id : UUID)
| PublishEvent (event_id user_id : UUID).

Definition api_step (op : ApiOp) (s : Session) : Session :=
  match op with
  | Service op => step op s
  | CreateEvent payload u new_id => commit (create_event payload u new_id) s
  | PublishEvent e u => commit (publish_event e u) s
  end.

Definition api_run (ops : list ApiOp) (s : Session) : Session :=
  foldl (λ s op, api_step op s) s ops.

(** * The services on the session of [app/db.py]

    [app/db.py] hands the services the [Session] of sqlmodel, and the
    three service modules build their statements with the [select] of
    sqlalchemy ([from sqlalchemy import select], where [app/main.py] has
    [from sqlmodel import Session, select]).  [Session.exec] reduces a
    result to its mapped objects only for the [select] of sqlmodel; for
    [sqlalchemy.select] it yields the rows of the result, each a tuple of
    one element.  Reading [row.status], setting [row.status] or taking
    [int(row)] on such a tuple raises.

    The definitions above read the services with a session whose [exec]
    yields the mapped objects.  Module [Stock] has the same source lines
    with the session as it is shipped. *)

Module Stock.

(** What a name of a service is bound to: an instance of a mapped class,
    or a row of a result that holds it (for [select(func.count())], the
    number and a row that holds the number). *)
Inductive Obj (A : Type) : Type :=
| Mapped (element : A)
| Row (element : A).
Arguments Mapped {A} element.
Arguments Row {A} element.

Definition element {A} (o : Obj A) : A :=
  match o with Mapped a => a | Row a => a end.

(** [o.name]: the column of a mapped object; a row has the keys of its
    statement only, which for [select(Event)] is the class name, and any
    other name raises [AttributeError]. *)
Definition getattr {A B} (o : Obj A) (name : string) (column : A → B) : Outcome B :=
  match o with
  | Mapped a => Return (column a)
  | Row _ => Raise (AttributeError name)
  end.

(** [o.name = v]: a row cannot be written. *)
Definition setattr {A} (o : Obj A) (name : string) (set : A → A) : Outcome (Obj A) :=
  match o with
  | Mapped a => Return (Mapped (set a))
  | Row _ => Raise (AttributeError name)
  end.

(** [int(o)] *)
Definition int (o : Obj Z) : Outcome Z :=
  match o with
  | Mapped n => Return n
  | Row _ => Raise TypeError
  end.

(** [session.exec(stmt)] for a statement of [sqlalchemy.select]. *)
Definition exec {A} (stmt : Session → list A) : Tx (list (Obj A)) :=
  query (λ s, Row <$> stmt s).

Definition obind {A B} (o : Outcome A) (k : A → Outcome B) : Outcome B :=
  match o with
  | Return a => k a
  | Raise e => Raise e
  end.

Notation "'let?' x ':=' o 'in' k" := (obind o (λ x, k))
  (at level 10, x pattern, o at level 100, k at level 200).

(** The INTEGER columns [capacity] and [seats_offered] hold 32 bits; a
    flush of a value outside raises [DataError]. *)
Definition flush_participant (p : Obj (N * EventParticipant.t)) : Tx unit :=
  if bool_decide (int4 (EventParticipant.seats_offered (element p).2)) then
    write_participant (element p).1 (element p).2
  else raise DataError.

Definition on_row {A} (f : A → A) (r : N * A) : N * A := (r.1, f r.2).

(** ** app/services/participants.py *)

Definition _count_approved (event_id : UUID) : Tx Z :=
  let* rows := exec (λ s, [Z.of_nat (length (select_participants
                                              (is_approved_in event_id) s))]) in
  let* n := lift (one rows) in
  lift (int n).

Definition _resolve_join_status (event : Obj Event.t) (approved_count : Z) :
    Outcome ParticipationStatus.t :=
  let? status := getattr event "status" Event.status in
  if bool_decide (status ≠ EventStatus.PUBLISHED) then
    Raise (HTTPException 400 "Event is not published")
  else
    let? status := getattr event "status" Event.status in
    if bool_decide (status = EventStatus.CANCELED) then
      Raise (HTTPException 400 "Event is canceled")
    else
      let? capacity := getattr event "capacity" Event.capacity in
      let is_full :=
        match capacity with
        | Some capacity => bool_decide (capacity ≤ approved_count)
        | None => false
        end in
      let? join_policy := getattr event "join_policy" Event.join_policy in
      match join_policy with
      | EventJoinPolicy.OPEN =>
          if is_full then Raise (HTTPException 400 "Event is full")
          else Return ParticipationStatus.APPROVED
      | EventJoinPolicy.APPROVAL => Return ParticipationStatus.PENDING
      | EventJoinPolicy.OPEN_UNTIL_CAPACITY_THEN_APPROVAL =>
          Return (if is_full then ParticipationStatus.PENDING
                  else ParticipationStatus.APPROVED)
      end.

Definition join_event (event_id user_id : UUID) (ride_mode : RideMode.t)
    (seats_offered : option Z) (pickup_area notes : option string)
    (new_id : UUID) (now : Z) : Tx (Obj (N * EventParticipant.t)) :=
  let* rows := exec (select_event event_id) in
  let* event := lift (one_or_none rows) in
  match event with
  | None => raise (HTTPException 404 "Event not found")
  | Some event =>
    let* status := lift (getattr event "status" Event.status) in
    if bool_decide (status = EventStatus.CANCELED) then
      raise (HTTPException 400 "Event is canceled")
    else
      let* approved := _count_approved event_id in
      let* status := lift (_resolve_join_status event approved) in
      let* rs := lift (_normalize_ride ride_mode seats_offered) in
      let ride_mode := rs.1 in
      let seats_offered := rs.2 in
      let* rows := exec (select_participants (is_of_user event_id user_id)) in
      let* p := lift (one_or_none rows) in
      match p with
      | None =>
          let p := EventParticipant.mk event_id user_id status ride_mode
                     seats_offered pickup_area notes now in
          if bool_decide (int4 seats_offered) then
            let* _ := add_participant new_id p in
            ret (Mapped (new_id, p))
          else raise DataError
      | Some p =>
          let* p := lift (setattr p "status"
                            (on_row (EventParticipant.set_status status))) in
          let* p := lift (setattr p "ride_mode"
                            (on_row (EventParticipant.set_ride_mode ride_mode))) in
          let* p := lift (setattr p "seats_offered"
                            (on_row (EventParticipant.set_seats_offered seats_offered))) in
          let* p :=
            if pickup_area is Some _ then
              lift (setattr p "pickup_area"
                      (on_row (EventParticipant.set_pickup_area pickup_area)))
            else ret p in
          let* p :=
            if notes is Some _ then
              lift (setattr p "notes" (on_row (EventParticipant.set_notes notes)))
            else ret p in
          let* _ := flush_participant p in
          ret p
      end
  end.

Definition leave_event (event_id user_id : UUID) : Tx (Obj (N * EventParticipant.t)) :=
  let* rows := exec (select_participants (is_of_user event_id user_id)) in
  let* p := lift (one_or_none rows) in
  match p with
  | None => raise (HTTPException 404 "Not joined")
  | Some p =>
    let* p := lift (setattr p "status"
                      (on_row (EventParticipant.set_status
                                 ParticipationStatus.CANCELED))) in
    let* p := lift (setattr p "ride_mode"
                      (on_row (EventParticipant.set_ride_mode RideMode.NONE))) in
    let* p := lift (setattr p "seats_offered"
                      (on_row (EventParticipant.set_seats_offered 0))) in
    let* id := lift (getattr p "id" fst) in
    let* _ := flush_participant p in
    let* _ := cancel_active_matches event_id id in
    let* rows := exec (select_event event_id) in
    let* event := lift (one rows) in
    let* join_policy := lift (getattr event "join_policy" Event.join_policy) in
    let* capacity := lift (getattr event "capacity" Event.capacity) in
    let* _ :=
      if bool_decide (join_policy = EventJoinPolicy.OPEN_UNTIL_CAPACITY_THEN_APPROVAL)
         && truthy capacity then
        let* approved := _count_approved event_id in
        if bool_decide (approved < default 0 capacity) then
          let* pending :=
            exec (λ s, order_by_created_at
                         (select_participants (is_pending_in event_id) s)) in
          let* oldest_pending := lift (one_or_none pending) in
          match oldest_pending with
          | Some o =>
              let* o := lift (setattr o "status"
                                (on_row (EventParticipant.set_status
                                           ParticipationStatus.APPROVED))) in
              flush_participant o
          | None => ret tt
          end
        else ret tt
      else ret tt in
    ret p
  end.

Definition update_my_participation (event_id user_id : UUID)
    (ride_mode : option RideMode.t) (seats_offered : option Z)
    (pickup_area notes : option string) : Tx (Obj (N * EventParticipant.t)) :=
  let* rows := exec (select_participants (is_of_user event_id user_id)) in
  let* p := lift (one_or_none rows) in
  match p with
  | None => raise (HTTPException 404 "Not joined")
  | Some p =>
    let* status := lift (getattr p "status" (λ r, EventParticipant.status r.2)) in
    if bool_decide (status ≠ ParticipationStatus.APPROVED ∧
                    status ≠ ParticipationStatus.PENDING) then
      raise (HTTPException 400 "Cannot update in this status")
    else
      let* prev_mode := lift (getattr p "ride_mode"
                                (λ r, EventParticipant.ride_mode r.2)) in
      let* new_mode :=
        if ride_mode is Some m then ret m
        else lift (getattr p "ride_mode" (λ r, EventParticipant.ride_mode r.2)) in
      let* new_seats :=
        if seats_offered is Some n then ret n
        else lift (getattr p "seats_offered"
                     (λ r, EventParticipant.seats_offered r.2)) in
      let* rs := lift (_normalize_ride new_mode (Some new_seats)) in
      let* p := lift (setattr p "ride_mode"
                        (on_row (EventParticipant.set_ride_mode rs.1))) in
      let* p := lift (setattr p "seats_offered"
                        (on_row (EventParticipant.set_seats_offered rs.2))) in
      let* p :=
        if pickup_area is Some _ then
          lift (setattr p "pickup_area"
                  (on_row (EventParticipant.set_pickup_area pickup_area)))
        else ret p in
      let* p :=
        if notes is Some _ then
          lift (setattr p "notes" (on_row (EventParticipant.set_notes notes)))
        else ret p in
      let* mode := lift (getattr p "ride_mode" (λ r, EventParticipant.ride_mode r.2)) in
      let* _ :=
        if bool_decide (prev_mode ≠ mode) then
          let* id := lift (getattr p "id" fst) in
          let* _ := flush_participant p in
          cancel_active_matches event_id id
        else ret tt in
      let* _ := flush_participant p in
      ret p
  end.

(** ** app/services/organizer.py *)

Definition _ensure_organizer (event_id user_id : UUID) : Tx (Obj Event.t) :=
  let* rows := exec (select_event event_id) in
  let* event := lift (one_or_none rows) in
  match event with
  | None => raise (HTTPException 404 "Event not found")
  | Some event =>
      let* created_by := lift (getattr event "created_by" Event.created_by) in
      if bool_decide (created_by ≠ user_id) then
        raise (HTTPException 403 "Forbidden")
      else ret event
  end.

Definition list_participants (event_id organizer_id : UUID) :
    Tx (list (Obj (N * EventParticipant.t))) :=
  let* _ := _ensure_organizer event_id organizer_id in
  exec (λ s, order_by_created_at (select_participants (is_in_event event_id) s)).

Definition set_participant_status (event_id organizer_id participant_id : UUID)
    (next_status : ParticipationStatus.t) : Tx (Obj (N * EventParticipant.t)) :=
  if bool_decide (next_status ≠ ParticipationStatus.APPROVED ∧
                  next_status ≠ ParticipationStatus.REJECTED) then
    raise (HTTPException 400 "Invalid status change")
  else
    let* rows := exec (select_event event_id) in
    let* event := lift (one_or_none rows) in
    match event with
    | None => raise (HTTPException 404 "Event not found")
    | Some event =>
      let* created_by := lift (getattr event "created_by" Event.created_by) in
      if bool_decide (created_by ≠ organizer_id) then
        raise (HTTPException 403 "Forbidden")
      else
        let* rows := exec (select_participant_in participant_id event_id) in
        let* p := lift (one_or_none rows) in
        match p with
        | None => raise (HTTPException 404 "Participant not found")
        | Some p =>
          let* _ :=
            if bool_decide (next_status = ParticipationStatus.APPROVED) then
              let* capacity := lift (getattr event "capacity" Event.capacity) in
              match capacity with
              | Some capacity =>
                  let* rows :=
                    exec (λ s, [Z.of_nat (length (select_participants
                                                    (is_approved_in event_id) s))]) in
                  let* approved := lift (one rows) in
                  let* approved_count := lift (int approved) in
                  if bool_decide (capacity ≤ approved_count) then
                    raise (HTTPException 400 "Cannot approve: event is full")
                  else ret tt
              | None => ret tt
              end
            else ret tt in
          let* p := lift (setattr p "status"
                            (on_row (EventParticipant.set_status next_status))) in
          let* _ := flush_participant p in
          ret p
        end
    end.

(** The number of a [select(func.count())] or of a sum, read by
    [int(session.exec(...).one())]. *)
Definition scalar_one (n : Session → Z) : Tx Z :=
  let* rows := exec (λ s, [n s]) in
  let* row := lift (one rows) in
  lift (int row).

Definition event_stats (event_id : UUID) : Tx EventStatsOut :=
  let _count_status status :=
    scalar_one (λ s, Z.of_nat (length (select_participants
                                         (has_status_in event_id status) s))) in
  let* approved_count := _count_status ParticipationStatus.APPROVED in
  let* pending_count := _count_status ParticipationStatus.PENDING in
  let* rejected_count := _count_status ParticipationStatus.REJECTED in
  let* canceled_count := _count_status ParticipationStatus.CANCELED in
  let* need_ride_count :=
    scalar_one (λ s, Z.of_nat (length (select_participants
                                         (is_approved_mode_in event_id RideMode.NEED) s))) in
  let* offer_ride_count :=
    scalar_one (λ s, Z.of_nat (length (select_participants
                                         (is_approved_mode_in event_id RideMode.OFFER) s))) in
  let* seats_offered_total :=
    scalar_one (λ s, sum_coalesce
                       ((λ r, EventParticipant.seats_offered r.2) <$>
                        select_participants
                          (is_approved_mode_in event_id RideMode.OFFER) s)) in
  let* seats_accepted_total :=
    scalar_one (λ s, Z.of_nat (length (select_matches (is_accepted_in event_id) s))) in
  let seats_remaining_total := Z.max 0 (seats_offered_total - seats_accepted_total) in
  let* need_riders_ids :=
    exec (λ s, fst <$> select_participants
                         (is_approved_mode_in event_id RideMode.NEED) s) in
  let need_riders_set : gset N := list_to_set (element <$> need_riders_ids) in
  let* accepted_riders_ids :=
    exec (λ s, (λ r, RideMatch.rider_participant_id r.2) <$>
               select_matches (is_accepted_in event_id) s) in
  let accepted_riders_set : gset N := list_to_set (element <$> accepted_riders_ids) in
  let unmatched_riders_count :=
    Z.of_nat (size (need_riders_set ∖ accepted_riders_set)) in
  ret (mkStats approved_count pending_count rejected_count canceled_count
         need_ride_count offer_ride_count seats_offered_total seats_accepted_total
         seats_remaining_total unmatched_riders_count).

(** ** app/services/rides.py *)

Definition _accepted_count (event_id driver_pid : UUID) : Tx Z :=
  scalar_one (λ s, Z.of_nat (length (select_matches
                                       (is_accepted_of event_id driver_pid) s))).

Definition _ensure_compatible_and_seat (event_id driver_pid rider_pid : UUID) : Tx unit :=
  let* rows := exec (select_participant_in driver_pid event_id) in
  let* driver := lift (one_or_none rows) in
  let* rows := exec (select_participant_in rider_pid event_id) in
  let* rider := lift (one_or_none rows) in
  match driver, rider with
  | Some driver, Some rider =>
    let* driver_id := lift (getattr driver "id" fst) in
    let* rider_id := lift (getattr rider "id" fst) in
    if bool_decide (driver_id = rider_id) then
      raise (HTTPException 400 "Driver and rider must be different")
    else
      let* driver_status :=
        lift (getattr driver "status" (λ r, EventParticipant.status r.2)) in
      let* rider_status :=
        if bool_decide (driver_status ≠ ParticipationStatus.APPROVED)
        then ret driver_status
        else lift (getattr rider "status" (λ r, EventParticipant.status r.2)) in
      if bool_decide (driver_status ≠ ParticipationStatus.APPROVED ∨
                      rider_status ≠ ParticipationStatus.APPROVED) then
        raise (HTTPException 400 "Both participants must be approved")
      else
        let* driver_mode :=
          lift (getattr driver "ride_mode" (λ r, EventParticipant.ride_mode r.2)) in
        if bool_decide (driver_mode ≠ RideMode.OFFER) then
          raise (HTTPException 400 "Driver is not offering")
        else
          let* rider_mode :=
            lift (getattr rider "ride_mode" (λ r, EventParticipant.ride_mode r.2)) in
          if bool_decide (rider_mode ≠ RideMode.NEED) then
            raise (HTTPException 400 "Rider does not need a ride")
          else
            let* driver_id := lift (getattr driver "id" fst) in
            let* accepted := _accepted_count event_id driver_id in
            let* seats :=
              lift (getattr driver "seats_offered"
                      (λ r, EventParticipant.seats_offered r.2)) in
            if bool_decide (seats ≤ accepted) then
              raise (HTTPException 400 "No seats remaining for this driver")
            else ret tt
  | _, _ => raise (HTTPException 404 "Driver or rider not found")
  end.

Definition create_match (event_id created_by driver_pid rider_pid : UUID)
    (new_id : UUID) (now : Z) : Tx (Obj (N * RideMatch.t)) :=
  let* _ := _ensure_compatible_and_seat event_id driver_pid rider_pid in
  let m := RideMatch.mk event_id driver_pid rider_pid RideMatchStatus.PROPOSED
             created_by now in
  let* _ := add_match new_id m in
  ret (Mapped (new_id, m)).

Definition update_match_status (match_id user_id : UUID)
    (next_status : RideMatchStatus.t) : Tx (Obj (N * RideMatch.t)) :=
  if bool_decide (next_status ≠ RideMatchStatus.ACCEPTED ∧
                  next_status ≠ RideMatchStatus.REJECTED ∧
                  next_status ≠ RideMatchStatus.CANCELED) then
    raise (HTTPException 400 "Invalid next status")
  else
    let* rows := exec (select_match match_id) in
    let* m := lift (one_or_none rows) in
    match m with
    | None => raise (HTTPException 404 "Match not found")
    | Some m =>
      let* driver_pid :=
        lift (getattr m "driver_participant_id"
                (λ r, RideMatch.driver_participant_id r.2)) in
      let* rows := exec (select_participant driver_pid) in
      let* driver := lift (one_or_none rows) in
      let* rider_pid :=
        lift (getattr m "rider_participant_id"
                (λ r, RideMatch.rider_participant_id r.2)) in
      let* rows := exec (select_participant rider_pid) in
      let* rider := lift (one_or_none rows) in
      let* created_by := lift (getattr m "created_by" (λ r, RideMatch.created_by r.2)) in
      let* driver_user :=
        if driver is Some d
        then lift (getattr d "user_id" (λ r, Some (EventParticipant.user_id r.2)))
        else ret None in
      let* rider_user :=
        if rider is Some r
        then lift (getattr r "user_id" (λ r, Some (EventParticipant.user_id r.2)))
        else ret None in
      let allowed :=
        bool_decide (user_id = created_by)
        || bool_decide (Some user_id = driver_user)
        || bool_decide (Some user_id = rider_user) in
      if negb allowed then
        raise (HTTPException 403 "Forbidden")
      else
        let* _ :=
          if bool_decide (next_status = RideMatchStatus.ACCEPTED) then
            let* event_id := lift (getattr m "event_id" (λ r, RideMatch.event_id r.2)) in
            let* driver_pid :=
              lift (getattr m "driver_participant_id"
                      (λ r, RideMatch.driver_participant_id r.2)) in
            let* rider_pid :=
              lift (getattr m "rider_participant_id"
                      (λ r, RideMatch.rider_participant_id r.2)) in
            _ensure_compatible_and_seat event_id driver_pid rider_pid
          else ret tt in
        let* m := lift (setattr m "status" (on_row (RideMatch.set_status next_status))) in
        let* _ := write_match (element m).1 (element m).2 in
        ret m
    end.

(** The inner [while remaining > 0 and rider_idx < len(riders)] loop of
    [suggestions]; [fuel] bounds the number of iterations and [None] means
    the bound was reached with the loop condition still true. *)
Fixpoint suggestions_while (fuel : nat) (d : Obj (N * EventParticipant.t))
    (riders : list (Obj (N * EventParticipant.t))) (remaining : Z) (rider_idx : nat)
    (out : list (N * N)) : option (Outcome (list (N * N) * nat)) :=
  if bool_decide (0 < remaining) && bool_decide (rider_idx < length riders)%nat then
    match fuel with
    | O => None
    | S fuel =>
        match getattr d "id" fst with
        | Raise e => Some (Raise e)
        | Return d_id =>
            match riders !! rider_idx with
            | None => Some (Raise IndexError)
            | Some r =>
                match getattr r "id" fst with
                | Raise e => Some (Raise e)
                | Return r_id =>
                    suggestions_while fuel d riders (remaining - 1) (rider_idx + 1)
                      (out ++ [(d_id, r_id)])
                end
            end
        end
    end
  else Some (Return (out, rider_idx)).

(** The [for d in drivers] loop with its [break]. *)
Fixpoint suggestions_for (s : Session) (event_id : UUID) (fuel : nat)
    (drivers riders : list (Obj (N * EventParticipant.t))) (rider_idx : nat)
    (out : list (N * N)) : option (Outcome (list (N * N))) :=
  match drivers with
  | [] => Some (Return out)
  | d :: drivers =>
      match getattr d "id" fst with
      | Raise e => Some (Raise e)
      | Return d_id =>
          match (_accepted_count event_id d_id s).1 with
          | Raise e => Some (Raise e)
          | Return accepted =>
              match getattr d "seats_offered"
                      (λ r, EventParticipant.seats_offered r.2) with
              | Raise e => Some (Raise e)
              | Return seats =>
                  let remaining := seats - accepted in
                  match suggestions_while fuel d riders remaining rider_idx out with
                  | None => None
                  | Some (Raise e) => Some (Raise e)
                  | Some (Return (out, rider_idx)) =>
                      if bool_decide (length riders ≤ rider_idx)%nat
                      then Some (Return out)
                      else suggestions_for s event_id fuel drivers riders rider_idx out
                  end
              end
          end
      end
  end.

Definition suggestions (event_id : UUID) (s : Session) :
    option (Outcome (list (N * N))) :=
  let drivers := Row <$> suggestions_drivers event_id s in
  let riders := Row <$> suggestions_riders event_id s in
  suggestions_for s event_id (length riders) drivers riders 0 [].

(** ** app/main.py: the routes that mutate, each in one transaction *)

Definition step (op : Op) (s : Session) : Session :=
  match op with
  | Join e u rm so pa nt new_id now => commit (join_event e u rm so pa nt new_id now) s
  | Leave e u => commit (leave_event e u) s
  | UpdateMyParticipation e u rm so pa nt => commit (update_my_participation e u rm so pa nt) s
  | SetParticipantStatus e o pid st => commit (set_participant_status e o pid st) s
  | CreateMatch e u d r new_id now => commit (create_match e u d r new_id now) s
  | UpdateMatchStatus mid u st => commit (update_match_status mid u st) s
  end.

Definition run (ops : list Op) (s : Session) : Session :=
  foldl (λ s op, step op s) s ops.

(** [create_event] and [publish_event] are routes of [app/main.py]
    itself, which takes [select] from sqlmodel: they are as above. *)
Definition api_step (op : ApiOp) (s : Session) : Session :=
  match op with
  | Service op => step op s
  | CreateEvent payload u new_id => commit (create_event payload u new_id) s
  | PublishEvent e u => commit (publish_event e u) s
  end.

Definition api_run (ops : list ApiOp) (s : Session) : Session :=
  foldl (λ s op, api_step op s) s ops.

End Stock.

(** * The written specification over the embedding *)

(** ** Reading a computation *)

Ltac tx_unfold :=
  cbv [bind ret raise lift query modify write_participant write_match
       cancel_active_matches transaction commit] in *.

(** A computation leaves the table of events as it is. *)
Definition preserves_events {A} (m : Tx A) : Prop :=
  ∀ s, events (m s).2 = events s.

(** The tables of [s] with the status column of one event set, as
    [publish_event] of [app/main.py] does for PUBLISHED. *)
Definition set_event_status (st : EventStatus.t) (e : Event.t) : Event.t :=
  Event.mk (Event.created_by e) (Event.capacity e) (Event.join_policy e) st.


(** ** Counting rows *)

(** The number of rows of a table that satisfy [P], and the share of one
    row in it. *)
Definition count_rows {A} (P : N * A → Prop) `{∀ r, Decision (P r)}
    (m : gmap N A) : nat :=
  length (filter P (map_to_list m)).
Definition indicator {A} (P : N * A → Prop) `{∀ r, Decision (P r)} (r : N * A) : nat :=
  if bool_decide (P r) then 1%nat else 0%nat.

(** ** Joining *)

(** The unique constraint [uq_event_user] of [EventParticipant], as seen by
    the query for the row of one user in one event: at most one row. *)
Definition uq_event_user (event_id user_id : UUID) (s : Session) : Prop :=
  (length (select_participants (is_of_user event_id user_id) s) ≤ 1)%nat.

(** Invalid ride fields in the words of the written specification: the
    mode is OFFER with fewer than one seat, or any other mode with a seat
    count other than zero. *)
Definition ride_fields_invalid (ride_mode : RideMode.t) (seats_offered : option Z) : Prop :=
  let seats := default 0 seats_offered in
  (ride_mode = RideMode.OFFER ∧ seats < 1) ∨ (ride_mode ≠ RideMode.OFFER ∧ seats ≠ 0).

(** An exception is a validation error of the ride fields when
    [_normalize_ride] raises it on some input. *)
Definition is_validation_error (e : Exception) : Prop :=
  ∃ ride_mode seats_offered, _normalize_ride ride_mode seats_offered = Raise e.

(** ** Leaving *)

(** The tables of [leave_event] once the leaver's row [id] is written as
    canceled and the leaver's active matches are canceled. *)
Definition after_cancel (event_id id : UUID) (p : EventParticipant.t) (s : Session) :
    Session :=
  mkSession (events s)
    (<[id := EventParticipant.set_seats_offered 0
               (EventParticipant.set_ride_mode RideMode.NONE
                  (EventParticipant.set_status ParticipationStatus.CANCELED p))]>
       (event_participants s))
    (cancel_if_active event_id id <$> ride_matches s).

(** ** Matches and seats *)

(** The compatibility and seat conditions of the written specification,
    on the tables as they are when the match is accepted. *)
Definition accept_conditions (s : Session) (m : RideMatch.t) : Prop :=
  ∃ driver rider,
    event_participants s !! RideMatch.driver_participant_id m = Some driver ∧
    EventParticipant.event_id driver = RideMatch.event_id m ∧
    event_participants s !! RideMatch.rider_participant_id m = Some rider ∧
    EventParticipant.event_id rider = RideMatch.event_id m ∧
    RideMatch.driver_participant_id m ≠ RideMatch.rider_participant_id m ∧
    EventParticipant.status driver = ParticipationStatus.APPROVED ∧
    EventParticipant.status rider = ParticipationStatus.APPROVED ∧
    EventParticipant.ride_mode driver = RideMode.OFFER ∧
    EventParticipant.ride_mode rider = RideMode.NEED ∧
    _accepted_count (RideMatch.event_id m) (RideMatch.driver_participant_id m) s
      < EventParticipant.seats_offered driver.

(** The number of ACCEPTED matches that name [pid] as driver, whatever
    their event. *)
Definition names_as_driver (pid : UUID) (r : N * RideMatch.t) : Prop :=
  RideMatch.driver_participant_id r.2 = pid ∧
  RideMatch.status r.2 = RideMatchStatus.ACCEPTED.
#[global] Instance names_as_driver_dec pid r : Decision (names_as_driver pid r).
Proof. unfold names_as_driver. apply _. Defined.

(** ** Tables and calls used as examples *)

Definition ev_open_cap1 : Event.t :=
  Event.mk 100%N (Some 1) EventJoinPolicy.OPEN EventStatus.PUBLISHED.

Definition ev_approval : Event.t :=
  Event.mk 100%N None EventJoinPolicy.APPROVAL EventStatus.PUBLISHED.

Definition ev_until_cap1 : Event.t :=
  Event.mk 100%N (Some 1) EventJoinPolicy.OPEN_UNTIL_CAPACITY_THEN_APPROVAL
    EventStatus.PUBLISHED.

Definition approved_none (event_id user_id : UUID) (created_at : Z) : EventParticipant.t :=
  EventParticipant.mk event_id user_id ParticipationStatus.APPROVED RideMode.NONE 0
    None None created_at.

Definition pending_none (event_id user_id : UUID) (created_at : Z) : EventParticipant.t :=
  EventParticipant.mk event_id user_id ParticipationStatus.PENDING RideMode.NONE 0
    None None created_at.

Definition canceled_none (event_id user_id : UUID) (created_at : Z) : EventParticipant.t :=
  EventParticipant.mk event_id user_id ParticipationStatus.CANCELED RideMode.NONE 0
    None None created_at.

Definition driver_row (event_id user_id : UUID) (seats : Z) (created_at : Z) :
    EventParticipant.t :=
  EventParticipant.mk event_id user_id ParticipationStatus.APPROVED RideMode.OFFER seats
    None None created_at.

Definition rider_row (event_id user_id : UUID) (created_at : Z) : EventParticipant.t :=
  EventParticipant.mk event_id user_id ParticipationStatus.APPROVED RideMode.NEED 0
    None None created_at.

Definition match_row (event_id driver rider : UUID) (st : RideMatchStatus.t)
    (created_by : UUID) (created_at : Z) : RideMatch.t :=
  RideMatch.mk event_id driver rider st created_by created_at.

Definition s_open_empty : Session := mkSession {[ 1%N := ev_open_cap1 ]} ∅ ∅.

(** An OPEN event of capacity 1 whose only participant has left. *)
Definition s_open_left : Session :=
  mkSession {[ 1%N := ev_open_cap1 ]} {[ 1001%N := canceled_none 1 10 1 ]} ∅.

(** A driver with one seat, one rider, and a proposed match between
    them. *)
Definition s_one_proposed : Session :=
  mkSession {[ 1%N := ev_approval ]}
    (<[ 1001%N := driver_row 1 10 1 1 ]> {[ 1002%N := rider_row 1 11 2 ]})
    {[ 2001%N := match_row 1 1001 1002 RideMatchStatus.PROPOSED 10 3 ]}.

(** Capacity 1 under OPEN_UNTIL_CAPACITY_THEN_APPROVAL: one approved
    participant and one pending participant created after. *)
Definition s_one_pending : Session :=
  mkSession {[ 1%N := ev_until_cap1 ]}
    (<[ 1001%N := approved_none 1 10 1 ]> {[ 1002%N := pending_none 1 11 2 ]})
    ∅.

(** Drivers D1 (one seat) and D2 (two seats) and riders R1, R2, R3, in
    this order of creation, and no match. *)
Definition s_planner : Session :=
  mkSession {[ 1%N := ev_approval ]}
    (<[ 1001%N := driver_row 1 10 1 1 ]>
     (<[ 1002%N := driver_row 1 11 2 2 ]>
      (<[ 1003%N := rider_row 1 12 1 ]>
       (<[ 1004%N := rider_row 1 13 2 ]>
        {[ 1005%N := rider_row 1 14 3 ]}))))
    ∅.

(** Two joins on the OPEN event of capacity 1 (the second is refused), an
    attempt of the organizer to approve, and a leave. *)
Definition capacity_ops : list Op :=
  [ Join 1 10 RideMode.NONE None None None 1001 1;
    Join 1 11 RideMode.NONE None None None 1002 2;
    SetParticipantStatus 1 100 1001 ParticipationStatus.APPROVED;
    Leave 1 10 ]%N.


(** * Further properties: definitions *)

(** The check constraint [chk_offer_seats] of [EventParticipant]. *)
Definition chk_offer_seats (p : EventParticipant.t) : Prop :=
  (EventParticipant.ride_mode p = RideMode.OFFER ∧ 1 ≤ EventParticipant.seats_offered p) ∨
  (EventParticipant.ride_mode p ≠ RideMode.OFFER ∧ EventParticipant.seats_offered p = 0).

(** [None] for an optional field of a request leaves the column as it
    is. *)
Definition provided {A} (new : option A) (old : option A) : option A :=
  if new is Some _ then new else old.

(** The row of a participant who has left. *)
Definition left_row (p : EventParticipant.t) : EventParticipant.t :=
  EventParticipant.set_seats_offered 0
    (EventParticipant.set_ride_mode RideMode.NONE
       (EventParticipant.set_status ParticipationStatus.CANCELED p)).

(** ** Constraints of the tables, over the calls of the interface *)

(** Every stored row satisfies [chk_offer_seats]. *)
Definition rows_checked (s : Session) : Prop :=
  ∀ id p, event_participants s !! id = Some p → chk_offer_seats p.

(** The unique constraint [uq_event_user]: no two rows for one user in
    one event. *)
Definition rows_unique (s : Session) : Prop :=
  ∀ id1 id2 p1 p2,
    event_participants s !! id1 = Some p1 →
    event_participants s !! id2 = Some p2 →
    EventParticipant.event_id p1 = EventParticipant.event_id p2 →
    EventParticipant.user_id p1 = EventParticipant.user_id p2 →
    id1 = id2.

(** Every participant is in an event that exists (the foreign key of
    [event_id]) and is not a DRAFT. *)
Definition rows_hosted (s : Session) : Prop :=
  ∀ id p, event_participants s !! id = Some p →
    ∃ ev, events s !! EventParticipant.event_id p = Some ev ∧
          Event.status ev ≠ EventStatus.DRAFT.

(** The rows of [ps'] are those of [ps] rewritten in place: the same ids,
    each with the event and the user it had, and within the check of the
    table if it was. *)
Definition rewrites_rows (ps ps' : gmap N EventParticipant.t) : Prop :=
  ∀ id,
    match ps !! id, ps' !! id with
    | Some p, Some p' =>
        EventParticipant.event_id p' = EventParticipant.event_id p ∧
        EventParticipant.user_id p' = EventParticipant.user_id p ∧
        (chk_offer_seats p → chk_offer_seats p')
    | None, None => True
    | _, _ => False
    end.

(** One row is added to [s]: a checked row of a user who had none in
    that event, which is PUBLISHED. *)
Definition adds_row (s : Session) (ps' : gmap N EventParticipant.t) : Prop :=
  ∃ id p',
    event_participants s !! id = None ∧
    ps' = <[id := p']> (event_participants s) ∧
    chk_offer_seats p' ∧
    select_participants
      (is_of_user (EventParticipant.event_id p') (EventParticipant.user_id p')) s = [] ∧
    ∃ ev, events s !! EventParticipant.event_id p' = Some ev ∧
          Event.status ev = EventStatus.PUBLISHED.

(** The events of [es'] are those of [es], with one DRAFT added under a
    new key or one set to PUBLISHED at most. *)
Definition events_step (es es' : gmap N Event.t) : Prop :=
  es' = es ∨
  (∃ id ev, es !! id = None ∧ es' = <[id := ev]> es) ∨
  (∃ id ev, es !! id = Some ev ∧
            es' = <[id := set_event_status EventStatus.PUBLISHED ev]> es).

(** A create, a publish, three joins and a leave. *)
Definition lifecycle_ops : list ApiOp :=
  [ CreateEvent (mkEventCreate (Some 1%Z) EventJoinPolicy.OPEN_UNTIL_CAPACITY_THEN_APPROVAL)
      100 1;
    PublishEvent 1 100;
    Service (Join 1 10 RideMode.OFFER (Some 2%Z) None None 1001 1);
    Service (Join 1 11 RideMode.NEED None None None 1002 2);
    Service (Leave 1 10);
    Service (Join 1 10 RideMode.NONE None None None 1003 3) ]%N.

Definition s_empty : Session := mkSession ∅ ∅ ∅.

(** ** The matches, over the calls of the interface *)

(** The columns of a match that name what it joins and who proposed it,
    everything but its status. *)
Definition same_ends (m m' : RideMatch.t) : Prop :=
  RideMatch.event_id m' = RideMatch.event_id m ∧
  RideMatch.driver_participant_id m' = RideMatch.driver_participant_id m ∧
  RideMatch.rider_participant_id m' = RideMatch.rider_participant_id m ∧
  RideMatch.created_by m' = RideMatch.created_by m ∧
  RideMatch.created_at m' = RideMatch.created_at m.

(** Every match joins two different participants of its own event: the
    foreign keys of the driver and the rider, the check
    [chk_driver_not_rider], and the event they share. *)
Definition matches_hosted (s : Session) : Prop :=
  ∀ id m, ride_matches s !! id = Some m →
    RideMatch.driver_participant_id m ≠ RideMatch.rider_participant_id m ∧
    ∃ d r,
      event_participants s !! RideMatch.driver_participant_id m = Some d ∧
      EventParticipant.event_id d = RideMatch.event_id m ∧
      event_participants s !! RideMatch.rider_participant_id m = Some r ∧
      EventParticipant.event_id r = RideMatch.event_id m.

(** From [s] to [s'] no match is deleted or changes its ends, and a match
    that comes new passes the compatibility and seat check in [s]. *)
Definition matches_step (s s' : Session) : Prop :=
  (∀ id m, ride_matches s !! id = Some m →
     ∃ m', ride_matches s' !! id = Some m' ∧ same_ends m m') ∧
  (∀ id m', ride_matches s' !! id = Some m' →
     (∃ m, ride_matches s !! id = Some m ∧ same_ends m m') ∨
     accept_conditions s m').

(** Two events, with a driver and a rider in the first. *)
Definition two_event_ops : list ApiOp :=
  [ CreateEvent (mkEventCreate None EventJoinPolicy.OPEN) 100 1;
    CreateEvent (mkEventCreate None EventJoinPolicy.OPEN) 100 2;
    PublishEvent 1 100;
    PublishEvent 2 100;
    Service (Join 1 10 RideMode.OFFER (Some 1%Z) None None 1001 1);
    Service (Join 1 11 RideMode.NEED None None None 1002 2);
    Service (CreateMatch 1 11 1001 1002 2001 3);
    Service (UpdateMatchStatus 2001 10 RideMatchStatus.ACCEPTED);
    Service (Leave 1 11) ]%N.

(** * The shipped services: definitions for their properties *)

Ltac stock_unfold :=
  cbv [Stock.exec Stock.scalar_one Stock._count_approved Stock._accepted_count
       bind ret raise lift query modify transaction commit] in *.

(** An error of kind InvalidState, ValidationError or Capacity reaches the
    caller as a response of status 400, NotFound as 404 and Forbidden as
    403: the status codes that the services give to [HTTPException]. *)
Definition is_bad_request (e : Exception) : Prop :=
  ∃ detail, e = HTTPException 400 detail.




(** An event of capacity 1 under OPEN, created and published by user 100
    through the two routes of [app/main.py]. *)
Definition published_ops : list ApiOp :=
  [ CreateEvent (mkEventCreate (Some 1%Z) EventJoinPolicy.OPEN) 100 1;
    PublishEvent 1 100 ]%N.
Definition s_published : Session := Stock.api_run published_ops s_empty.

(** A DRAFT, created and not yet published. *)
Definition s_draft : Session :=
  Stock.api_run [CreateEvent (mkEventCreate (Some 1%Z) EventJoinPolicy.OPEN) 100%N 1%N] s_empty.

(** * Properties of the services *)

(** ** Running a computation *)

Lemma select_event_lookup event_id s :
  one_or_none (select_event event_id s) = Return (events s !! event_id).
Proof. unfold select_event. by destruct (events s !! event_id). Qed.

Lemma elem_of_select_participants (P : N * EventParticipant.t → Prop)
    `{∀ r, Decision (P r)} s id p :
  (id, p) ∈ select_participants P s ↔ P (id, p) ∧ event_participants s !! id = Some p.
Proof.
  unfold select_participants. rw list_elem_of_filter elem_of_map_to_list. done.
Qed.

(** ** Join: status by policy, and the order of the checks *)

Lemma _normalize_ride_invalid ride_mode seats_offered :
  ride_fields_invalid ride_mode seats_offered ↔
  ∃ detail, _normalize_ride ride_mode seats_offered = Raise (HTTPException 400 detail).
Proof.
  unfold ride_fields_invalid, _normalize_ride.
  destruct seats_offered as [seats|]; simpl.
  all: repeat case_bool_decide; subst.
  all: split.
  all: try (intros _; by eauto).
  all: try (intros [d Hd]; discriminate).
  all: try (intros _; left; split; [done|lia]).
  all: try (intros _; right; split; [done|lia]).
  all: try (intros [[? ?]|[? ?]]; first [lia | congruence]).
Qed.

(** ** Accepting a match *)

Lemma _ensure_compatible_and_seat_state event_id driver_pid rider_pid s :
  (_ensure_compatible_and_seat event_id driver_pid rider_pid s).2 = s.
Proof.
  unfold _ensure_compatible_and_seat, select_participant_in. tx_unfold.
  repeat (case_match; simpl; try done).
Qed.

Lemma _ensure_compatible_and_seat_ok s m :
  accept_conditions s m ↔
  _ensure_compatible_and_seat (RideMatch.event_id m)
    (RideMatch.driver_participant_id m) (RideMatch.rider_participant_id m) s
  = (Return tt, s).
Proof.
  unfold accept_conditions, _ensure_compatible_and_seat, select_participant_in.
  tx_unfold.
  destruct (event_participants s !! RideMatch.driver_participant_id m) as [d|],
    (event_participants s !! RideMatch.rider_participant_id m) as [r|]; simpl.
  2-4: split; [by intros (?&?&?&?&?&?)|by repeat (case_match; simpl)].
  repeat (case_bool_decide; simpl).
  all: split; [intros (d'&r'&?&?&?&?&?&?&?&?&?&?); simplify_eq |].
  all: try done.
  - by destruct H2.
  - lia.
  - intros _. exists d, r.
    repeat split; try done; try lia; apply dec_stable; naive_solver.
Qed.

Lemma select_participant_one participant_id s :
  one_or_none (select_participant participant_id s)
  = Return (head (select_participant participant_id s)).
Proof. unfold select_participant. by destruct (_ !! _). Qed.

(** ** Counting the rows of a table *)

Section count.
Context {A : Type} (P : N * A → Prop) `{∀ r, Decision (P r)}.

Lemma count_rows_add m k v :
  m !! k = None → count_rows P (<[k:=v]> m) = (count_rows P m + indicator P (k, v))%nat.
Proof.
  intros Hk. unfold count_rows, indicator.
  rw (map_to_list_insert m k v Hk) filter_cons.
  case_bool_decide; destruct (decide (P (k, v))); simpl; try done; lia.
Qed.

Lemma count_rows_lookup m k v :
  m !! k = Some v →
  count_rows P m = (count_rows P (delete k m) + indicator P (k, v))%nat.
Proof.
  intros Hk. rw -{1}(insert_id m k v Hk) -insert_delete_eq.
  apply count_rows_add, lookup_delete_eq.
Qed.

Lemma count_rows_write m k v v' :
  m !! k = Some v →
  (count_rows P (<[k:=v']> m) + indicator P (k, v)
   = count_rows P m + indicator P (k, v'))%nat.
Proof.
  intros Hk. rw (count_rows_lookup m k v Hk) -insert_delete_eq.
  rw count_rows_add; [apply lookup_delete_eq|]. lia.
Qed.

Lemma count_rows_put m k v' :
  (count_rows P (<[k:=v']> m) ≤ count_rows P m + 1)%nat ∧
  (¬ P (k, v') → count_rows P (<[k:=v']> m) ≤ count_rows P m)%nat.
Proof.
  destruct (m !! k) as [v|] eqn:Hk.
  - pose proof (count_rows_write m k v v' Hk) as Hw. revert Hw.
    unfold indicator. repeat case_bool_decide; intros; split; try done; lia.
  - pose proof (count_rows_add m k v' Hk) as Hw. revert Hw.
    unfold indicator. repeat case_bool_decide; intros; split; try done; lia.
Qed.

Lemma count_rows_put_same m k v v' :
  m !! k = Some v → (P (k, v) ↔ P (k, v')) →
  count_rows P (<[k:=v']> m) = count_rows P m.
Proof.
  intros Hk Hiff. pose proof (count_rows_write m k v v' Hk) as Hw. revert Hw.
  unfold indicator. repeat case_bool_decide; intros; try lia; tauto.
Qed.
End count.

(** ** Capacity *)

Lemma _count_approved_count_rows event_id s :
  _count_approved event_id s
  = Z.of_nat (count_rows (is_approved_in event_id) (event_participants s)).
Proof. done. Qed.

Lemma _count_approved_with_matches event_id ms s :
  _count_approved event_id (with_matches ms s) = _count_approved event_id s.
Proof. done. Qed.

Lemma one_or_none_Some {A} (rows : list A) r :
  one_or_none rows = Return (Some r) → rows = [r].
Proof. destruct rows as [|? [|? ?]]; simpl; congruence. Qed.

Lemma one_or_none_select_participants (P : N * EventParticipant.t → Prop)
    `{∀ r, Decision (P r)} s id p :
  one_or_none (select_participants P s) = Return (Some (id, p)) →
  P (id, p) ∧ event_participants s !! id = Some p.
Proof.
  intros Hone%one_or_none_Some. apply (elem_of_select_participants P).
  rw Hone. left.
Qed.

Lemma _resolve_join_status_approved event n C :
  _resolve_join_status event n = Return ParticipationStatus.APPROVED →
  Event.capacity event = Some C → n < C.
Proof.
  unfold _resolve_join_status, is_full. intros Hres Hc. rw Hc in Hres.
  repeat case_bool_decide; try done; try lia.
  all: destruct (Event.join_policy event); simplify_eq.
Qed.

Lemma join_event_within_capacity event_id user_id ride_mode seats_offered pickup_area
    notes new_id now s e ev C x s' :
  events s !! e = Some ev → Event.capacity ev = Some C →
  _count_approved e s ≤ C →
  join_event event_id user_id ride_mode seats_offered pickup_area notes new_id now s
    = (Return x, s') →
  _count_approved e s' ≤ C.
Proof.
  intros Hev Hcap Hle. unfold join_event. tx_unfold.
  rw select_event_lookup.
  destruct (events s !! event_id) as [event|] eqn:Hevent; simpl; [|done].
  case_bool_decide; [done|].
  destruct (_resolve_join_status event _) as [st|] eqn:Hres; simpl; [|done].
  destruct (_normalize_ride _ _) as [[rm' so']|]; simpl; [|done].
  assert (Hfull : st = ParticipationStatus.APPROVED → event_id = e →
                  _count_approved e s < C).
  { intros -> ->. eapply _resolve_join_status_approved; [done|]. congruence. }
  rw !_count_approved_count_rows in Hfull Hle |- *.
  destruct (one_or_none _) as [[[id p]|]|] eqn:Hrow; simpl; [| |done].
  - apply one_or_none_select_participants in Hrow as [[He Hu] Hp].
    intros [= <- <-]. simpl.
    match goal with |- context [<[id := ?p']> _] =>
      destruct (count_rows_put (is_approved_in e) (event_participants s) id p')
        as [Hle1 Hle0];
      destruct (decide (is_approved_in e (id, p'))) as [[He' Hs']|Hn] end.
    + assert (st = ParticipationStatus.APPROVED) by by destruct pickup_area, notes.
      assert (event_id = e) by (by destruct pickup_area, notes; simpl in *; subst).
      specialize (Hfull ltac:(done) ltac:(done)). lia.
    + specialize (Hle0 Hn). lia.
  - unfold add_participant. destruct (event_participants s !! new_id); [done|].
    intros [= <- <-]. simpl.
    match goal with |- context [<[new_id := ?p']> _] =>
      destruct (count_rows_put (is_approved_in e) (event_participants s) new_id p')
        as [Hle1 Hle0];
      destruct (decide (is_approved_in e (new_id, p'))) as [[He' Hs']|Hn] end.
    + simpl in *. specialize (Hfull ltac:(done) ltac:(done)). lia.
    + specialize (Hle0 Hn). lia.
Qed.

Ltac put_cases e k :=
  match goal with |- context [<[k := ?p']> ?m] =>
    let H1 := fresh "Hput" in
    let H0 := fresh "Hput" in
    let Hn := fresh "Hn" in
    destruct (count_rows_put (is_approved_in e) m k p') as [H1 H0];
    destruct (decide (is_approved_in e (k, p'))) as [[? ?]|Hn];
    [clear H0 | specialize (H0 Hn)]; simpl in *
  end.

Lemma leave_event_within_capacity event_id user_id s e ev C x s' :
  events s !! e = Some ev → Event.capacity ev = Some C →
  _count_approved e s ≤ C →
  leave_event event_id user_id s = (Return x, s') →
  _count_approved e s' ≤ C.
Proof.
  intros Hev Hcap Hle. unfold leave_event. tx_unfold.
  destruct (one_or_none _) as [[[id p]|]|] eqn:Hrow; simpl; [| done..].
  apply one_or_none_select_participants in Hrow as [[He Hu] Hp].
  unfold select_event; simpl.
  destruct (events s !! event_id) as [event|] eqn:Hevent; simpl; [|done].
  set (s1 := with_matches _ _).
  assert (Hs1 : _count_approved e s1 ≤ C).
  { subst s1. rw !_count_approved_count_rows in Hle |- *. simpl.
    put_cases e id; [done|lia]. }
  destruct (_ && _) eqn:Hpol; simpl; [|by intros [= <- <-]].
  apply andb_prop in Hpol as [_ Htruthy].
  case_bool_decide as Hlt; simpl; [|by intros [= <- <-]].
  destruct (one_or_none _) as [[[oid o]|]|] eqn:Hold; simpl;
    [|by intros [= <- <-]|done].
  apply one_or_none_Some in Hold.
  assert ((oid, o) ∈ order_by_created_at (select_participants (is_pending_in event_id) s1))
    as Hin by (rw Hold; left).
  unfold order_by_created_at in Hin. rw merge_sort_Permutation in Hin.
  apply (elem_of_select_participants (is_pending_in event_id)) in Hin as [[Ho _] _].
  intros [= <- <-]. rw !_count_approved_count_rows in Hs1 Hlt |- *. simpl in *.
  put_cases e oid; [|lia].
  simpl in *. assert (event_id = e) as -> by congruence.
  rw Hev in Hevent. injection Hevent as <-. rw Hcap /= in Hlt. lia.
Qed.

Lemma update_my_participation_within_capacity event_id user_id ride_mode seats_offered
    pickup_area notes s e C x s' :
  _count_approved e s ≤ C →
  update_my_participation event_id user_id ride_mode seats_offered pickup_area notes s
    = (Return x, s') →
  _count_approved e s' ≤ C.
Proof.
  intros Hle. unfold update_my_participation. tx_unfold.
  destruct (one_or_none _) as [[[id p]|]|] eqn:Hrow; simpl; [| done..].
  apply one_or_none_select_participants in Hrow as [_ Hp].
  case_bool_decide; [done|].
  destruct (_normalize_ride _ _) as [[rm' so']|]; simpl; [|done].
  assert (∀ p', EventParticipant.event_id p' = EventParticipant.event_id p →
                EventParticipant.status p' = EventParticipant.status p →
                _count_approved e
                  (with_participants (<[id:=p']> (event_participants s)) s)
                = _count_approved e s) as Hsame.
  { intros p' Hpe Hps. rw !_count_approved_count_rows. f_equal. simpl.
    apply (count_rows_put_same _ _ _ p); [done|].
    unfold is_approved_in; simpl. by rw Hpe Hps. }
  case_bool_decide; simpl; intros [= <- <-].
  all: rw ?_count_approved_with_matches Hsame //; by destruct pickup_area, notes.
Qed.

Lemma set_participant_status_within_capacity event_id organizer_id participant_id
    next_status s e ev C x s' :
  events s !! e = Some ev → Event.capacity ev = Some C →
  _count_approved e s ≤ C →
  set_participant_status event_id organizer_id participant_id next_status s
    = (Return x, s') →
  _count_approved e s' ≤ C.
Proof.
  intros Hev Hcap Hle. unfold set_participant_status. tx_unfold.
  case_bool_decide as Hnext; [done|].
  rw select_event_lookup.
  destruct (events s !! event_id) as [event|] eqn:Hevent; simpl; [|done].
  case_bool_decide; [done|].
  unfold select_participant_in.
  destruct (event_participants s !! participant_id) as [p|] eqn:Hp; simpl; [|done].
  case_bool_decide as Hpe; simpl; [|done].
  match goal with |- context [let (_, _) := ?c s in _] =>
    destruct (c s) as [[[]|err] s1] eqn:Hc; [|done] end.
  assert (s1 = s) as ->.
  { revert Hc. repeat (case_match; try done); by intros [= <-]. }
  intros [= <- <-]. rw !_count_approved_count_rows in Hle |- *. simpl.
  put_cases e participant_id; [|lia].
  subst. rw bool_decide_eq_true_2 // in Hc.
  rw Hev in Hevent. injection Hevent as <-. rw Hcap in Hc.
  case_bool_decide as Hfull; [done|].
  rw _count_approved_count_rows in Hfull. lia.
Qed.

Lemma create_match_participants event_id created_by driver_pid rider_pid new_id now s :
  event_participants (create_match event_id created_by driver_pid rider_pid new_id now s).2
  = event_participants s.
Proof.
  unfold create_match. tx_unfold.
  pose proof (_ensure_compatible_and_seat_state event_id driver_pid rider_pid s) as Hs.
  destruct (_ensure_compatible_and_seat _ _ _ s) as [[[]|e] s1]; simpl in *; subst;
    [|done].
  unfold add_match. by destruct (ride_matches s !! new_id).
Qed.

Lemma update_match_status_participants match_id user_id next_status s :
  event_participants (update_match_status match_id user_id next_status s).2
  = event_participants s.
Proof.
  unfold update_match_status, select_match. tx_unfold.
  case_bool_decide; [done|].
  destruct (ride_matches s !! match_id) as [m|]; simpl; [|done].
  rw !select_participant_one /=.
  destruct (allowed _ _ _ _); simpl; [|done].
  case_bool_decide; simpl; [|done].
  pose proof (_ensure_compatible_and_seat_state (RideMatch.event_id m)
    (RideMatch.driver_participant_id m) (RideMatch.rider_participant_id m) s) as Hs.
  by destruct (_ensure_compatible_and_seat _ _ _ s) as [[[]|e] s1]; simpl in *; subst.
Qed.

Lemma commit_cases {A} (m : Tx A) s :
  (∃ x, m s = (Return x, commit m s)) ∨ commit m s = s.
Proof.
  unfold commit, transaction. destruct (m s) as [[x|e] s']; simpl; eauto.
Qed.

Lemma step_within_capacity op s e ev C :
  events s !! e = Some ev → Event.capacity ev = Some C →
  _count_approved e s ≤ C →
  _count_approved e (step op s) ≤ C.
Proof.
  intros Hev Hcap Hle.
  destruct op; simpl;
    match goal with |- context [commit ?m s] =>
      destruct (commit_cases m s) as [[x Hx]|Hx]; [|by rw Hx] end.
  - by eapply join_event_within_capacity.
  - by eapply leave_event_within_capacity.
  - by eapply update_my_participation_within_capacity.
  - by eapply set_participant_status_within_capacity.
  - unfold _count_approved, select_participants.
    apply (f_equal snd) in Hx. simpl in Hx. rw -Hx create_match_participants. done.
  - unfold _count_approved, select_participants.
    apply (f_equal snd) in Hx. simpl in Hx.
    rw -Hx update_match_status_participants. done.
Qed.

Lemma preserves_events_bind {A B} (m : Tx A) (k : A → Tx B) :
  preserves_events m → (∀ a, preserves_events (k a)) → preserves_events (bind m k).
Proof.
  intros Hm Hk s. unfold bind. specialize (Hm s).
  destruct (m s) as [[a|e] s1]; simpl in *; [|done]. by rw Hk.
Qed.

Lemma preserves_events_ret {A} (a : A) : preserves_events (ret a).
Proof. done. Qed.
Lemma preserves_events_raise {A} e : preserves_events (@raise A e).
Proof. done. Qed.
Lemma preserves_events_lift {A} (o : Outcome A) : preserves_events (lift o).
Proof. done. Qed.
Lemma preserves_events_query {A} (f : Session → A) : preserves_events (query f).
Proof. done. Qed.
Lemma preserves_events_write_participant id p :
  preserves_events (write_participant id p).
Proof. done. Qed.
Lemma preserves_events_write_match id m : preserves_events (write_match id m).
Proof. done. Qed.
Lemma preserves_events_cancel_active_matches event_id pid :
  preserves_events (cancel_active_matches event_id pid).
Proof. done. Qed.
Lemma preserves_events_add_participant id p : preserves_events (add_participant id p).
Proof. intros s. unfold add_participant. by destruct (_ !! _). Qed.
Lemma preserves_events_add_match id m : preserves_events (add_match id m).
Proof. intros s. unfold add_match. by destruct (_ !! _). Qed.

Create HintDb events_db.
#[local] Hint Resolve preserves_events_ret preserves_events_raise preserves_events_lift
  preserves_events_query preserves_events_write_participant preserves_events_write_match
  preserves_events_cancel_active_matches preserves_events_add_participant
  preserves_events_add_match : events_db.

Ltac preserves_events_tac :=
  repeat first
    [ solve [auto with events_db]
    | apply preserves_events_bind
    | progress intros
    | progress cbv zeta
    | case_bool_decide
    | case_match ].

Lemma join_event_events event_id user_id ride_mode seats_offered pickup_area notes
    new_id now :
  preserves_events
    (join_event event_id user_id ride_mode seats_offered pickup_area notes new_id now).
Proof. unfold join_event. preserves_events_tac. Qed.

Lemma leave_event_events event_id user_id :
  preserves_events (leave_event event_id user_id).
Proof. unfold leave_event. preserves_events_tac. Qed.

Lemma update_my_participation_events event_id user_id ride_mode seats_offered
    pickup_area notes :
  preserves_events
    (update_my_participation event_id user_id ride_mode seats_offered pickup_area notes).
Proof. unfold update_my_participation. preserves_events_tac. Qed.

Lemma set_participant_status_events event_id organizer_id participant_id next_status :
  preserves_events
    (set_participant_status event_id organizer_id participant_id next_status).
Proof. unfold set_participant_status. preserves_events_tac. Qed.

Lemma _ensure_compatible_and_seat_events event_id driver_pid rider_pid :
  preserves_events (_ensure_compatible_and_seat event_id driver_pid rider_pid).
Proof. intros s. by rw _ensure_compatible_and_seat_state. Qed.

#[local] Hint Resolve _ensure_compatible_and_seat_events : events_db.

Lemma create_match_events event_id created_by driver_pid rider_pid new_id now :
  preserves_events (create_match event_id created_by driver_pid rider_pid new_id now).
Proof. unfold create_match. preserves_events_tac. Qed.

Lemma update_match_status_events match_id user_id next_status :
  preserves_events (update_match_status match_id user_id next_status).
Proof. unfold update_match_status. preserves_events_tac. Qed.

Lemma commit_events {A} (m : Tx A) s :
  preserves_events m → events (commit m s) = events s.
Proof.
  intros Hm. specialize (Hm s). unfold commit, transaction.
  by destruct (m s) as [[x|e] s'].
Qed.

Lemma step_events op s : events (step op s) = events s.
Proof.
  destruct op; simpl; apply commit_events.
  - apply join_event_events.
  - apply leave_event_events.
  - apply update_my_participation_events.
  - apply set_participant_status_events.
  - apply create_match_events.
  - apply update_match_status_events.
Qed.

(** C1.  From tables on which the approved count of an event with
    capacity [C] is at most [C], every sequence of joins, leaves, updates
    of one's participation, status changes by the organizer, match
    creations and match status updates, each in its transaction, leads to
    tables on which the event has the same capacity and the approved count
    is at most [C]. *)
Theorem approved_never_exceeds_capacity ops s e ev C :
  events s !! e = Some ev →
  Event.capacity ev = Some C →
  _count_approved e s ≤ C →
  events (run ops s) !! e = Some ev ∧ _count_approved e (run ops s) ≤ C.
Proof.
  revert s. induction ops as [|op ops IH]; intros s Hev Hcap Hle; [done|].
  simpl. apply IH; [by rw step_events|done|].
  by eapply step_within_capacity.
Qed.

Lemma approved_never_exceeds_capacity_witness :
  events (run capacity_ops s_open_empty) !! 1%N = Some ev_open_cap1 ∧
  _count_approved 1%N (run capacity_ops s_open_empty) ≤ 1.
Proof.
  apply (approved_never_exceeds_capacity capacity_ops s_open_empty 1%N ev_open_cap1 1).
  - reflexivity.
  - reflexivity.
  - vm_compute. discriminate.
Defined.

(** ** Seats of a driver *)

Lemma _normalize_ride_return ride_mode seats_offered rm so :
  _normalize_ride ride_mode seats_offered = Return (rm, so) →
  rm = ride_mode ∧ so = default 0 seats_offered ∧ 0 ≤ so.
Proof.
  unfold _normalize_ride. destruct seats_offered as [n|]; simpl.
  all: repeat case_bool_decide; intros [= <- <-]; repeat split; try done; lia.
Qed.

(** * Further properties of the services *)

(** ** What a join writes *)

Lemma one_or_none_None {A} (rows : list A) :
  one_or_none rows = Return None → rows = [].
Proof. destruct rows as [|? [|? ?]]; simpl; congruence. Qed.

Lemma _normalize_ride_chk ride_mode seats_offered rm so :
  _normalize_ride ride_mode seats_offered = Return (rm, so) →
  (rm = RideMode.OFFER ∧ 1 ≤ so) ∨ (rm ≠ RideMode.OFFER ∧ so = 0).
Proof.
  unfold _normalize_ride. destruct seats_offered as [n|]; simpl.
  all: repeat case_bool_decide; intros [= <- <-]; try done.
  all: first [left; split; [done|lia] | right; split; [done|lia]].
Qed.

Lemma join_event_return event_id user_id ride_mode seats_offered pickup_area notes
    new_id now s id p' s' :
  join_event event_id user_id ride_mode seats_offered pickup_area notes new_id now s
    = (Return (id, p'), s') →
  s' = with_participants (<[id := p']> (event_participants s)) s ∧
  (∃ ev, events s !! event_id = Some ev ∧
         Event.status ev = EventStatus.PUBLISHED ∧
         _resolve_join_status ev (_count_approved event_id s)
         = Return (EventParticipant.status p')) ∧
  EventParticipant.event_id p' = event_id ∧
  EventParticipant.user_id p' = user_id ∧
  EventParticipant.ride_mode p' = ride_mode ∧
  EventParticipant.seats_offered p' = default 0 seats_offered ∧
  chk_offer_seats p' ∧
  match event_participants s !! id with
  | Some p =>
      select_participants (is_of_user event_id user_id) s = [(id, p)] ∧
      EventParticipant.created_at p' = EventParticipant.created_at p ∧
      EventParticipant.pickup_area p'
        = provided pickup_area (EventParticipant.pickup_area p) ∧
      EventParticipant.notes p' = provided notes (EventParticipant.notes p)
  | None =>
      id = new_id ∧
      select_participants (is_of_user event_id user_id) s = [] ∧
      EventParticipant.created_at p' = now ∧
      EventParticipant.pickup_area p' = pickup_area ∧
      EventParticipant.notes p' = notes
  end.
Proof.
  unfold join_event. tx_unfold.
  rw select_event_lookup.
  destruct (events s !! event_id) as [event|] eqn:Hevent; simpl; [|done].
  destruct (bool_decide (Event.status event = _)) eqn:Hcan; [done|].
  destruct (_resolve_join_status event _) as [st|] eqn:Hres; simpl; [|done].
  destruct (_normalize_ride _ _) as [[rm' so']|] eqn:Hnorm; simpl; [|done].
  pose proof (_normalize_ride_chk _ _ _ _ Hnorm) as Hchk.
  apply _normalize_ride_return in Hnorm as (-> & -> & Hso0).
  assert (Event.status event = EventStatus.PUBLISHED) as Hpub.
  { revert Hres. unfold _resolve_join_status.
    destruct (bool_decide (Event.status event ≠ _)) eqn:Hp; [done|].
    intros _. by apply bool_decide_eq_false, dec_stable in Hp. }
  destruct (one_or_none _) as [[[id0 p]|]|] eqn:Hrow; simpl; [| |done].
  - pose proof (one_or_none_Some _ _ Hrow) as Hrows.
    apply one_or_none_select_participants in Hrow as [[He Hu] Hp]. simpl in *.
    intros [= <- <- <-]. rw Hp.
    split; [done|]. split; [exists event; by destruct pickup_area, notes|].
    unfold chk_offer_seats, provided.
    by destruct pickup_area, notes; repeat split.
  - apply one_or_none_None in Hrow.
    unfold add_participant.
    destruct (event_participants s !! new_id) eqn:Hnew; [done|].
    intros [= <- <- <-]. rw Hnew.
    split; [done|]. split; [by exists event|]. by repeat split.
Qed.

(** ** What a leave writes *)

Lemma leave_event_return event_id user_id s id p' s' :
  leave_event event_id user_id s = (Return (id, p'), s') →
  ∃ p, select_participants (is_of_user event_id user_id) s = [(id, p)] ∧
       p' = left_row p ∧
       ((s' = after_cancel event_id id p s ∧
         ∀ ev c, events s !! event_id = Some ev →
           Event.join_policy ev = EventJoinPolicy.OPEN_UNTIL_CAPACITY_THEN_APPROVAL →
           Event.capacity ev = Some c → c ≠ 0 →
           _count_approved event_id (after_cancel event_id id p s) < c →
           select_participants (is_pending_in event_id) (after_cancel event_id id p s)
           = []) ∨
        ∃ oid o ev c,
          select_participants (is_pending_in event_id) (after_cancel event_id id p s)
            = [(oid, o)] ∧
          events s !! event_id = Some ev ∧
          Event.join_policy ev = EventJoinPolicy.OPEN_UNTIL_CAPACITY_THEN_APPROVAL ∧
          Event.capacity ev = Some c ∧ c ≠ 0 ∧
          _count_approved event_id (after_cancel event_id id p s) < c ∧
          s' = with_participants
                 (<[oid := EventParticipant.set_status ParticipationStatus.APPROVED o]>
                    (event_participants (after_cancel event_id id p s)))
                 (after_cancel event_id id p s)).
Proof.
  unfold leave_event. tx_unfold.
  destruct (one_or_none _) as [[[id0 p]|]|] eqn:Hrow; simpl; [| done..].
  apply one_or_none_Some in Hrow.
  unfold select_event; simpl.
  destruct (events s !! event_id) as [ev|] eqn:Hev; simpl; [|done].
  change (with_matches _ _) with (after_cancel event_id id0 p s).
  set (s1 := after_cancel event_id id0 p s).
  destruct (bool_decide (Event.join_policy ev = _)) eqn:Hpol; simpl.
  2: { apply bool_decide_eq_false in Hpol.
       intros [= <- <- <-]; exists p. split; [done|]. split; [done|]. left.
       split; [done|]. intros ev' c' [= <-]. done. }
  apply bool_decide_eq_true in Hpol.
  destruct (Event.capacity ev) as [c|] eqn:Hcap; simpl.
  2: { intros [= <- <- <-]; exists p. split; [done|]. split; [done|]. left.
       split; [done|]. intros ev' c' [= <-] _ Hc'. congruence. }
  destruct (bool_decide (c ≠ 0)) eqn:Hc; simpl.
  2: { apply bool_decide_eq_false in Hc.
       intros [= <- <- <-]; exists p. split; [done|]. split; [done|]. left.
       split; [done|]. intros ev' c' [= <-] _ Hcap' Hc'.
       rw Hcap in Hcap'. by injection Hcap' as <-. }
  apply bool_decide_eq_true in Hc.
  destruct (bool_decide (_count_approved event_id s1 < c)) eqn:Hlt; simpl.
  2: { apply bool_decide_eq_false in Hlt.
       intros [= <- <- <-]; exists p. split; [done|]. split; [done|]. left.
       split; [done|]. intros ev' c' [= <-] _ Hcap' _ Hlt'.
       rw Hcap in Hcap'. by injection Hcap' as <-. }
  apply bool_decide_eq_true in Hlt.
  destruct (one_or_none _) as [[[oid o]|]|] eqn:Hold; simpl; [| |done].
  - apply one_or_none_Some in Hold.
    assert (select_participants (is_pending_in event_id) s1 = [(oid, o)]) as Hpend.
    { unfold order_by_created_at in Hold.
      apply Permutation_singleton_r. by rw -Hold merge_sort_Permutation. }
    intros [= <- <- <-]. exists p. split; [done|]. split; [done|]. right.
    exists oid, o, ev, c. by repeat split.
  - apply one_or_none_None in Hold.
    assert (select_participants (is_pending_in event_id) s1 = []) as Hpend.
    { unfold order_by_created_at in Hold.
      apply Permutation_nil_r. by rw -Hold merge_sort_Permutation. }
    intros [= <- <- <-]; exists p. split; [done|]. split; [done|]. left. done.
Qed.

(** ** What an update of one's participation writes *)

Lemma update_my_participation_return event_id user_id ride_mode seats_offered
    pickup_area notes s id p' s' :
  update_my_participation event_id user_id ride_mode seats_offered pickup_area notes s
    = (Return (id, p'), s') →
  ∃ p,
    select_participants (is_of_user event_id user_id) s = [(id, p)] ∧
    (EventParticipant.status p = ParticipationStatus.APPROVED ∨
     EventParticipant.status p = ParticipationStatus.PENDING) ∧
    EventParticipant.status p' = EventParticipant.status p ∧
    EventParticipant.event_id p' = EventParticipant.event_id p ∧
    EventParticipant.user_id p' = EventParticipant.user_id p ∧
    EventParticipant.created_at p' = EventParticipant.created_at p ∧
    EventParticipant.ride_mode p' = default (EventParticipant.ride_mode p) ride_mode ∧
    EventParticipant.seats_offered p'
      = default (EventParticipant.seats_offered p) seats_offered ∧
    chk_offer_seats p' ∧
    EventParticipant.pickup_area p'
      = provided pickup_area (EventParticipant.pickup_area p) ∧
    EventParticipant.notes p' = provided notes (EventParticipant.notes p) ∧
    events s' = events s ∧
    event_participants s' = <[id := p']> (event_participants s) ∧
    ride_matches s'
      = if bool_decide (EventParticipant.ride_mode p' = EventParticipant.ride_mode p)
        then ride_matches s
        else cancel_if_active event_id id <$> ride_matches s.
Proof.
  unfold update_my_participation. tx_unfold.
  destruct (one_or_none _) as [[[id0 p]|]|] eqn:Hrow; simpl; [| done..].
  apply one_or_none_Some in Hrow.
  destruct (bool_decide (_ ∧ _)) eqn:Hst; [done|].
  apply bool_decide_eq_false in Hst.
  destruct (_normalize_ride _ _) as [[rm' so']|] eqn:Hnorm; simpl; [|done].
  pose proof (_normalize_ride_chk _ _ _ _ Hnorm) as Hchk.
  apply _normalize_ride_return in Hnorm as (-> & Hso & Hso0). simpl in Hso. subst so'.
  set (q := if notes is Some _ then _ else _).
  assert (EventParticipant.status q = EventParticipant.status p ∧
          EventParticipant.event_id q = EventParticipant.event_id p ∧
          EventParticipant.user_id q = EventParticipant.user_id p ∧
          EventParticipant.created_at q = EventParticipant.created_at p ∧
          EventParticipant.ride_mode q = default (EventParticipant.ride_mode p) ride_mode ∧
          EventParticipant.seats_offered q
            = default (EventParticipant.seats_offered p) seats_offered ∧
          EventParticipant.pickup_area q
            = provided pickup_area (EventParticipant.pickup_area p) ∧
          EventParticipant.notes q = provided notes (EventParticipant.notes p))
    as (Hq1 & Hq2 & Hq3 & Hq4 & Hq5 & Hq6 & Hq7 & Hq8)
    by (by subst q; destruct pickup_area, notes).
  assert (chk_offer_seats q) as Hchkq by (unfold chk_offer_seats; by rw Hq5 Hq6).
  assert (EventParticipant.status p = ParticipationStatus.APPROVED ∨
          EventParticipant.status p = ParticipationStatus.PENDING) as Hok.
  { destruct (EventParticipant.status p); auto; destruct Hst; by split. }
  rw Hq5.
  destruct (bool_decide (EventParticipant.ride_mode p ≠ _)) eqn:Hmode; simpl;
    intros [= <- <- <-]; exists p; simpl.
  - apply bool_decide_eq_true in Hmode.
    rw Hq5 (bool_decide_eq_false_2 (_ = _)); [congruence|]. by repeat split.
  - apply bool_decide_eq_false, dec_stable in Hmode.
    rw Hq5 (bool_decide_eq_true_2 (_ = _)); [congruence|]. by repeat split.
Qed.

(** ** Proposing a match *)

Lemma _ensure_compatible_and_seat_cases event_id driver_pid rider_pid s :
  (∃ e, _ensure_compatible_and_seat event_id driver_pid rider_pid s = (Raise e, s)) ∨
  _ensure_compatible_and_seat event_id driver_pid rider_pid s = (Return tt, s).
Proof.
  pose proof (_ensure_compatible_and_seat_state event_id driver_pid rider_pid s) as Hs.
  destruct (_ensure_compatible_and_seat _ _ _ s) as [[[]|e] s1]; simpl in *; subst;
    eauto.
Qed.

(** ** The organizer's calls and the listings *)

(** X16.  [list_matches] returns the matches of the event, every one
    once and in every status, the latest created first. *)
Theorem list_matches_complete event_id s :
  Sorted match_created_ge (list_matches event_id s) ∧
  NoDup (list_matches event_id s) ∧
  ∀ id m, (id, m) ∈ list_matches event_id s ↔
          ride_matches s !! id = Some m ∧ RideMatch.event_id m = event_id.
Proof.
  unfold list_matches. split; [|split].
  - assert (Total match_created_ge) by (intros a b; unfold match_created_ge; lia).
    apply (Sorted_merge_sort match_created_ge).
  - rw merge_sort_Permutation. apply NoDup_filter, NoDup_map_to_list.
  - intros id m. rw merge_sort_Permutation.
    unfold select_matches. rw list_elem_of_filter elem_of_map_to_list.
    unfold is_match_of_event; simpl. tauto.
Qed.

(** ** What one call of the interface does to the rows *)

Lemma select_participants_only (P : N * EventParticipant.t → Prop)
    `{∀ r, Decision (P r)} s id p :
  select_participants P s = [(id, p)] →
  P (id, p) ∧ event_participants s !! id = Some p.
Proof.
  intros Hrow. apply (elem_of_select_participants P). rw Hrow. left.
Qed.

Lemma rewrites_rows_refl ps : rewrites_rows ps ps.
Proof. intros id. by destruct (ps !! id). Qed.

Lemma rewrites_rows_trans ps1 ps2 ps3 :
  rewrites_rows ps1 ps2 → rewrites_rows ps2 ps3 → rewrites_rows ps1 ps3.
Proof.
  intros H12 H23 id. specialize (H12 id). specialize (H23 id).
  destruct (ps1 !! id), (ps2 !! id), (ps3 !! id); try done.
  destruct H12 as (He1 & Hu1 & Hc1), H23 as (He2 & Hu2 & Hc2).
  split; [congruence|]. split; [congruence|auto].
Qed.

Lemma rewrites_rows_put ps id p p' :
  ps !! id = Some p →
  EventParticipant.event_id p' = EventParticipant.event_id p →
  EventParticipant.user_id p' = EventParticipant.user_id p →
  (chk_offer_seats p → chk_offer_seats p') →
  rewrites_rows ps (<[id := p']> ps).
Proof.
  intros Hp He Hu Hchk k. destruct (decide (k = id)) as [->|Hne].
  - by rw lookup_insert_eq Hp.
  - rw lookup_insert_ne //. by destruct (ps !! k).
Qed.

Lemma set_participant_status_return event_id organizer_id participant_id next_status
    s x s' :
  set_participant_status event_id organizer_id participant_id next_status s
    = (Return x, s') →
  ∃ p, event_participants s !! participant_id = Some p ∧
       s' = with_participants
              (<[participant_id := EventParticipant.set_status next_status p]>
                 (event_participants s)) s.
Proof.
  unfold set_participant_status. tx_unfold.
  case_bool_decide as Hnext; [done|].
  rw select_event_lookup.
  destruct (events s !! event_id) as [event|] eqn:Hevent; simpl; [|done].
  case_bool_decide; [done|].
  unfold select_participant_in.
  destruct (event_participants s !! participant_id) as [p|] eqn:Hp; simpl; [|done].
  case_bool_decide as Hpe; simpl; [|done].
  match goal with |- context [let (_, _) := ?c s in _] =>
    destruct (c s) as [[[]|err] s1] eqn:Hc; [|done] end.
  assert (s1 = s) as ->.
  { revert Hc. repeat (case_match; try done); by intros [= <-]. }
  intros [= <- <-]. by exists p.
Qed.

Lemma chk_left_row p : chk_offer_seats (left_row p).
Proof. right. by split. Qed.

Lemma step_rows op s :
  events (step op s) = events s ∧
  (rewrites_rows (event_participants s) (event_participants (step op s)) ∨
   adds_row s (event_participants (step op s))).
Proof.
  split; [apply step_events|].
  destruct op; simpl;
    match goal with |- context [commit ?m s] =>
      destruct (commit_cases m s) as [[x Hx]|Hx];
        [|rw Hx; left; apply rewrites_rows_refl] end.
  - destruct x as [id p'].
    apply join_event_return in Hx
      as (-> & (ev & Hev & Hpub & _) & He & Hu & _ & _ & Hchk & Hcase). simpl.
    destruct (event_participants s !! id) as [p|] eqn:Hp.
    + destruct Hcase as (Hrow & _). left.
      destruct (select_participants_only _ _ _ _ Hrow) as [[He' Hu'] _].
      simpl in *. apply (rewrites_rows_put _ _ p); [done|congruence..|done].
    + destruct Hcase as (-> & Hrow & _). right.
      exists new_id, p'. rw He Hu. split; [done|]. split; [done|].
      split; [done|]. split; [done|]. by exists ev.
  - destruct x as [id p'].
    apply leave_event_return in Hx as (p & Hrow & -> & Hs'). left.
    destruct (select_participants_only _ _ _ _ Hrow) as [_ Hp].
    assert (rewrites_rows (event_participants s)
              (event_participants (after_cancel event_id id p s))) as H1.
    { simpl. apply (rewrites_rows_put _ _ p); [done..|]. intros _. apply chk_left_row. }
    destruct Hs' as [[-> _]|(oid & o & ev & c & Hpend & _ & _ & _ & _ & _ & ->)];
      [done|].
    eapply rewrites_rows_trans; [exact H1|].
    assert ((oid, o) ∈ select_participants (is_pending_in event_id)
              (after_cancel event_id id p s)) as Hin by (rw Hpend; left).
    apply (elem_of_select_participants (is_pending_in event_id)) in Hin as [_ Ho].
    cbn [event_participants with_participants].
    by apply (rewrites_rows_put _ _ o).
  - destruct x as [id p'].
    apply update_my_participation_return in Hx
      as (p & Hrow & _ & _ & He & Hu & _ & _ & _ & Hchk & _ & _ & _ & -> & _). left.
    destruct (select_participants_only _ _ _ _ Hrow) as [_ Hp].
    by apply (rewrites_rows_put _ _ p).
  - apply set_participant_status_return in Hx as (p & Hp & ->). left. simpl.
    by apply (rewrites_rows_put _ _ p).
  - left. apply (f_equal snd) in Hx. simpl in Hx.
    rw -Hx create_match_participants. apply rewrites_rows_refl.
  - left. apply (f_equal snd) in Hx. simpl in Hx.
    rw -Hx update_match_status_participants. apply rewrites_rows_refl.
Qed.

Lemma api_step_rows op s :
  events_step (events s) (events (api_step op s)) ∧
  (rewrites_rows (event_participants s) (event_participants (api_step op s)) ∨
   (events (api_step op s) = events s ∧ adds_row s (event_participants (api_step op s)))).
Proof.
  destruct op as [op|payload u new_id|e u]; simpl.
  - destruct (step_rows op s) as [Hev [Hr|Ha]].
    + split; [by left|by left].
    + split; [by left|by right].
  - unfold commit, transaction, create_event, add_event. tx_unfold. simpl.
    destruct (if payload_capacity payload is Some c then bool_decide (int4 c) else true);
      simpl; [|split; [by left|left; apply rewrites_rows_refl]].
    destruct (events s !! new_id) eqn:Hnew; simpl.
    + split; [by left|left; apply rewrites_rows_refl].
    + split; [right; left; eauto|left; apply rewrites_rows_refl].
  - unfold commit, transaction, publish_event. tx_unfold.
    rw select_event_lookup.
    destruct (events s !! e) as [ev|] eqn:Hev; simpl.
    + case_bool_decide; simpl.
      * split; [by left|left; apply rewrites_rows_refl].
      * split; [right; right; exists e, ev; by split|left; apply rewrites_rows_refl].
    + split; [by left|left; apply rewrites_rows_refl].
Qed.

(** ** Constraints kept by every call *)

Lemma api_step_rows_checked op s : rows_checked s → rows_checked (api_step op s).
Proof.
  intros Hinv. destruct (api_step_rows op s) as [_ [Hr|[_ Ha]]].
  - intros id p' Hp'. specialize (Hr id). rw Hp' in Hr.
    destruct (event_participants s !! id) as [p|] eqn:Hp; [|done].
    destruct Hr as (_ & _ & Hchk). apply Hchk. by eapply Hinv.
  - destruct Ha as (new & q & Hnew & Hps & Hchk & _). intros id p' Hp'.
    rw Hps in Hp'. destruct (decide (id = new)) as [->|Hne].
    + rw lookup_insert_eq in Hp'. by injection Hp' as <-.
    + rw lookup_insert_ne // in Hp'. by eapply Hinv.
Qed.

Lemma api_run_rows_checked ops s : rows_checked s → rows_checked (api_run ops s).
Proof.
  revert s. induction ops as [|op ops IH]; intros s Hinv; [done|].
  simpl. by apply IH, api_step_rows_checked.
Qed.

(** X17.  The check of the table on ride fields holds for every row
    after every sequence of calls of the interface, if it held before: a
    participant has ride mode OFFER and at least one seat, or another mode
    and no seat. *)
Theorem rows_checked_always ops s :
  rows_checked s → rows_checked (api_run ops s).
Proof. apply api_run_rows_checked. Qed.

Lemma rows_checked_empty s : event_participants s = ∅ → rows_checked s.
Proof. intros Hps id p. by rw Hps lookup_empty. Qed.

Lemma rows_checked_always_witness : rows_checked (api_run lifecycle_ops s_empty).
Proof.
  apply rows_checked_always, rows_checked_empty. reflexivity.
Defined.

Lemma api_step_rows_unique op s : rows_unique s → rows_unique (api_step op s).
Proof.
  intros Hinv. destruct (api_step_rows op s) as [_ [Hr|[_ Ha]]].
  - intros id1 id2 p1' p2' H1 H2 He Hu.
    pose proof (Hr id1) as Hr1. pose proof (Hr id2) as Hr2. rw H1 in Hr1. rw H2 in Hr2.
    destruct (event_participants s !! id1) as [p1|] eqn:Hp1; [|done].
    destruct (event_participants s !! id2) as [p2|] eqn:Hp2; [|done].
    destruct Hr1 as (He1 & Hu1 & _), Hr2 as (He2 & Hu2 & _).
    apply (Hinv id1 id2 p1 p2); congruence.
  - destruct Ha as (new & q & Hnew & Hps & _ & Hnone & _).
    assert (∀ id p, event_participants s !! id = Some p →
            EventParticipant.event_id p = EventParticipant.event_id q →
            EventParticipant.user_id p = EventParticipant.user_id q → False) as Hfresh.
    { intros id p Hp He Hu.
      assert ((id, p) ∈ select_participants
                (is_of_user (EventParticipant.event_id q) (EventParticipant.user_id q)) s)
        as Hin by by apply (elem_of_select_participants (is_of_user _ _)).
      rw Hnone in Hin. by apply elem_of_nil in Hin. }
    intros id1 id2 p1 p2 H1 H2 He Hu. rw Hps in H1 H2.
    destruct (decide (id1 = new)) as [->|Hn1], (decide (id2 = new)) as [->|Hn2];
      [done| | |].
    + rw lookup_insert_eq in H1. injection H1 as <-. rw lookup_insert_ne // in H2.
      exfalso. by eapply (Hfresh id2 p2).
    + rw lookup_insert_eq in H2. injection H2 as <-. rw lookup_insert_ne // in H1.
      exfalso. by eapply (Hfresh id1 p1).
    + rw lookup_insert_ne // in H1. rw lookup_insert_ne // in H2.
      by eapply Hinv.
Qed.

Lemma rows_unique_uq_event_user s event_id user_id :
  rows_unique s → uq_event_user event_id user_id s.
Proof.
  intros Hinv. unfold uq_event_user.
  assert (NoDup (select_participants (is_of_user event_id user_id) s)) as Hnd.
  { apply NoDup_filter, NoDup_map_to_list. }
  destruct (select_participants (is_of_user event_id user_id) s)
    as [|[id1 p1] [|[id2 p2] rows]] eqn:Hrows; simpl; [lia..|exfalso].
  assert ((id1, p1) ∈ select_participants (is_of_user event_id user_id) s) as H1
    by (rw Hrows; left).
  assert ((id2, p2) ∈ select_participants (is_of_user event_id user_id) s) as H2
    by (rw Hrows; right; left).
  apply (elem_of_select_participants (is_of_user event_id user_id)) in H1
    as [[He1 Hu1] Hp1].
  apply (elem_of_select_participants (is_of_user event_id user_id)) in H2
    as [[He2 Hu2] Hp2].
  simpl in *.
  assert (id1 = id2) as -> by (apply (Hinv id1 id2 p1 p2); congruence).
  rw Hp1 in Hp2. injection Hp2 as ->.
  apply NoDup_cons in Hnd as [Hnin _]. apply Hnin. left.
Qed.

(** X18.  The unique constraint on (event, user) holds after every
    sequence of calls of the interface, if it held before: no call ever
    stores a second row for a user in an event, and the query of a user's
    row finds one row at most. *)
Theorem rows_unique_always ops s :
  rows_unique s →
  rows_unique (api_run ops s) ∧
  ∀ event_id user_id, uq_event_user event_id user_id (api_run ops s).
Proof.
  intros Hinv.
  assert (rows_unique (api_run ops s)) as Hrun.
  { revert s Hinv. induction ops as [|op ops IH]; intros s Hinv; [done|].
    simpl. by apply IH, api_step_rows_unique. }
  split; [done|]. intros. by apply rows_unique_uq_event_user.
Qed.

Lemma rows_unique_empty s : event_participants s = ∅ → rows_unique s.
Proof. intros Hps id1 id2 p1 p2. by rw Hps lookup_empty. Qed.

Lemma rows_unique_always_witness :
  uq_event_user 1%N 10%N (api_run lifecycle_ops s_empty).
Proof.
  exact (proj2 (rows_unique_always lifecycle_ops s_empty
                  (rows_unique_empty s_empty eq_refl)) 1%N 10%N).
Defined.

Lemma api_step_rows_hosted op s : rows_hosted s → rows_hosted (api_step op s).
Proof.
  intros Hinv. destruct (api_step_rows op s) as [Hev Hrows].
  assert (∀ e ev, events s !! e = Some ev → Event.status ev ≠ EventStatus.DRAFT →
          ∃ ev', events (api_step op s) !! e = Some ev' ∧
                 Event.status ev' ≠ EventStatus.DRAFT) as Hkeep.
  { intros e ev He Hst. destruct Hev as [->|[(id & ev0 & Hid & ->)|(id & ev0 & Hid & ->)]].
    - by exists ev.
    - exists ev. split; [|done]. rw lookup_insert_ne //. congruence.
    - destruct (decide (id = e)) as [->|Hne].
      + rw lookup_insert_eq. by eexists.
      + rw lookup_insert_ne //. by exists ev. }
  destruct Hrows as [Hr|[Hsame Ha]].
  - intros id p' Hp'. specialize (Hr id). rw Hp' in Hr.
    destruct (event_participants s !! id) as [p|] eqn:Hp; [|done].
    destruct Hr as (He & _ & _). rw He.
    destruct (Hinv id p Hp) as (ev & Hev' & Hst). by eapply Hkeep.
  - destruct Ha as (new & q & Hnew & Hps & _ & _ & ev & Hq & Hst).
    intros id p' Hp'. rw Hps in Hp'. destruct (decide (id = new)) as [->|Hne].
    + rw lookup_insert_eq in Hp'. injection Hp' as <-. rw Hsame.
      exists ev. split; [done|]. by rw Hst.
    + rw lookup_insert_ne // in Hp'. destruct (Hinv id p' Hp') as (ev' & Hev' & Hst').
      by eapply Hkeep.
Qed.

Lemma rows_hosted_empty s : event_participants s = ∅ → rows_hosted s.
Proof. intros Hps id p. by rw Hps lookup_empty. Qed.

Lemma api_run_rows_hosted ops s : rows_hosted s → rows_hosted (api_run ops s).
Proof.
  revert s. induction ops as [|op ops IH]; intros s Hinv; [done|].
  simpl. by apply IH, api_step_rows_hosted.
Qed.

(** X19.  After every sequence of calls of the interface, every
    participant is in an event that exists and is not a DRAFT, if that
    held before: participants come by [join_event] only, which takes a
    PUBLISHED event, and no call deletes an event or sets it back. *)
Theorem rows_hosted_always ops s :
  rows_hosted s → rows_hosted (api_run ops s).
Proof. apply api_run_rows_hosted. Qed.

Lemma rows_hosted_always_witness : rows_hosted (api_run lifecycle_ops s_empty).
Proof.
  apply rows_hosted_always, rows_hosted_empty. reflexivity.
Defined.

Lemma rows_hosted_draft s event_id ev :
  rows_hosted s → events s !! event_id = Some ev →
  Event.status ev = EventStatus.DRAFT →
  select_participants (is_in_event event_id) s = [].
Proof.
  intros Hinv Hev Hst.
  destruct (select_participants (is_in_event event_id) s) as [|[id p] rows] eqn:Hrows;
    [done|exfalso].
  assert ((id, p) ∈ select_participants (is_in_event event_id) s) as Hin
    by (rw Hrows; left).
  apply (elem_of_select_participants (is_in_event event_id)) in Hin as [He Hp].
  unfold is_in_event in He. simpl in He.
  destruct (Hinv id p Hp) as (ev' & Hev' & Hst'). rw He Hev in Hev'.
  injection Hev' as <-. done.
Qed.

Lemma select_participants_of_user_nil s event_id user_id :
  select_participants (is_in_event event_id) s = [] →
  select_participants (is_of_user event_id user_id) s = [].
Proof.
  intros Hnil.
  destruct (select_participants (is_of_user event_id user_id) s) as [|[id p] rows] eqn:Hrows;
    [done|exfalso].
  assert ((id, p) ∈ select_participants (is_of_user event_id user_id) s) as Hin
    by (rw Hrows; left).
  apply (elem_of_select_participants (is_of_user event_id user_id)) in Hin as [[He _] Hp].
  assert ((id, p) ∈ select_participants (is_in_event event_id) s) as Hin'
    by by apply (elem_of_select_participants (is_in_event event_id)).
  rw Hnil in Hin'. by apply elem_of_nil in Hin'.
Qed.

(** ** The events *)

Lemma api_step_events_kept op s id ev :
  events s !! id = Some ev →
  ∃ ev', events (api_step op s) !! id = Some ev' ∧
         Event.created_by ev' = Event.created_by ev ∧
         Event.capacity ev' = Event.capacity ev ∧
         Event.join_policy ev' = Event.join_policy ev ∧
         (Event.status ev' = Event.status ev ∨
          Event.status ev' = EventStatus.PUBLISHED).
Proof.
  intros He. destruct (api_step_rows op s) as [Hev _].
  destruct Hev as [->|[(id0 & ev0 & Hid & ->)|(id0 & ev0 & Hid & ->)]].
  - exists ev. split_and!; auto.
  - exists ev. rw lookup_insert_ne; [congruence|]. split_and!; auto.
  - destruct (decide (id0 = id)) as [->|Hne].
    + rw lookup_insert_eq. rw He in Hid. injection Hid as <-.
      eexists. split; [done|]. destruct ev. simpl. split_and!; auto.
    + rw lookup_insert_ne //. exists ev. split_and!; auto.
Qed.

(** X21.  No call of the interface deletes an event or changes its
    creator, its capacity or its join policy; the status of an event stays
    as it is or becomes PUBLISHED. *)
Theorem events_kept ops s id ev :
  events s !! id = Some ev →
  ∃ ev', events (api_run ops s) !! id = Some ev' ∧
         Event.created_by ev' = Event.created_by ev ∧
         Event.capacity ev' = Event.capacity ev ∧
         Event.join_policy ev' = Event.join_policy ev ∧
         (Event.status ev' = Event.status ev ∨
          Event.status ev' = EventStatus.PUBLISHED).
Proof.
  revert s ev. induction ops as [|op ops IH]; intros s ev He.
  - exists ev. split_and!; auto.
  - simpl. destruct (api_step_events_kept op s id ev He) as (ev1 & H1 & Hc & Hcap & Hp & Hst).
    destruct (IH _ _ H1) as (ev2 & H2 & Hc2 & Hcap2 & Hp2 & Hst2).
    exists ev2. split; [done|]. split; [congruence|]. split; [congruence|].
    split; [congruence|]. destruct Hst2 as [Hst2|Hst2]; [|by right].
    rw Hst2. done.
Qed.

Lemma events_kept_witness :
  ∃ ev', events (api_run (tail lifecycle_ops) (api_run (take 1 lifecycle_ops) s_empty)) !! 1%N
           = Some ev' ∧
         Event.capacity ev' = Some 1.
Proof.
  destruct (events_kept (tail lifecycle_ops) (api_run (take 1 lifecycle_ops) s_empty) 1%N
              (Event.mk 100%N (Some 1) EventJoinPolicy.OPEN_UNTIL_CAPACITY_THEN_APPROVAL
                 EventStatus.DRAFT) ltac:(vm_compute; reflexivity))
    as (ev' & Hev' & _ & Hcap & _).
  exists ev'. split; [exact Hev'|exact Hcap].
Defined.

(** ** The matches kept by every call *)

Lemma same_ends_refl m : same_ends m m.
Proof. by unfold same_ends. Qed.

Lemma same_ends_set_status st m : same_ends m (RideMatch.set_status st m).
Proof. by unfold same_ends. Qed.

Lemma same_ends_cancel_if_active event_id pid m :
  same_ends m (cancel_if_active event_id pid m).
Proof.
  unfold cancel_if_active. case_bool_decide; [apply same_ends_set_status|apply same_ends_refl].
Qed.

Lemma matches_step_same s s' : ride_matches s' = ride_matches s → matches_step s s'.
Proof.
  intros Hms. split; intros id m Hm.
  - exists m. rw Hms. split; [done|apply same_ends_refl].
  - left. exists m. rw -Hms. split; [done|apply same_ends_refl].
Qed.

Lemma matches_step_cancel s s' event_id pid :
  ride_matches s' = cancel_if_active event_id pid <$> ride_matches s → matches_step s s'.
Proof.
  intros Hms. split; intros id m Hm.
  - exists (cancel_if_active event_id pid m). rw Hms lookup_fmap Hm.
    split; [done|apply same_ends_cancel_if_active].
  - left. rw Hms lookup_fmap in Hm.
    destruct (ride_matches s !! id) as [m0|]; [|done].
    injection Hm as <-. exists m0. split; [done|apply same_ends_cancel_if_active].
Qed.

Lemma matches_step_write s s' id m st :
  ride_matches s !! id = Some m →
  ride_matches s' = <[id := RideMatch.set_status st m]> (ride_matches s) →
  matches_step s s'.
Proof.
  intros Hm Hms. split; intros k m0 Hk.
  - rw Hms. destruct (decide (k = id)) as [->|Hne].
    + rw lookup_insert_eq. rw Hm in Hk. injection Hk as <-.
      eexists. split; [done|apply same_ends_set_status].
    + rw lookup_insert_ne //. exists m0. split; [done|apply same_ends_refl].
  - rw Hms in Hk. left. destruct (decide (k = id)) as [->|Hne].
    + rw lookup_insert_eq in Hk. injection Hk as <-.
      exists m. split; [done|apply same_ends_set_status].
    + rw lookup_insert_ne // in Hk. exists m0. split; [done|apply same_ends_refl].
Qed.

Lemma matches_step_add s s' id m :
  ride_matches s !! id = None →
  accept_conditions s m →
  ride_matches s' = <[id := m]> (ride_matches s) →
  matches_step s s'.
Proof.
  intros Hnew Hc Hms. split; intros k m0 Hk.
  - rw Hms. exists m0. rw lookup_insert_ne; [congruence|].
    split; [done|apply same_ends_refl].
  - rw Hms in Hk. destruct (decide (k = id)) as [->|Hne].
    + rw lookup_insert_eq in Hk. injection Hk as <-. by right.
    + rw lookup_insert_ne // in Hk. left. exists m0. split; [done|apply same_ends_refl].
Qed.

Lemma create_match_return event_id created_by driver_pid rider_pid new_id now s x s' :
  create_match event_id created_by driver_pid rider_pid new_id now s = (Return x, s') →
  let m := RideMatch.mk event_id driver_pid rider_pid RideMatchStatus.PROPOSED
             created_by now in
  accept_conditions s m ∧ ride_matches s !! new_id = None ∧
  s' = with_matches (<[new_id := m]> (ride_matches s)) s.
Proof.
  intros Hret m. revert Hret. unfold create_match. tx_unfold.
  pose proof (_ensure_compatible_and_seat_ok s m) as Hok. simpl in Hok.
  destruct (_ensure_compatible_and_seat_cases event_id driver_pid rider_pid s)
    as [[e He]|He]; rw He; simpl; [done|].
  unfold add_match. destruct (ride_matches s !! new_id) as [m0|] eqn:Hnew; [done|].
  intros [= <- <-]. split; [by apply Hok|done].
Qed.

Lemma update_match_status_return match_id user_id next_status s x s' :
  update_match_status match_id user_id next_status s = (Return x, s') →
  ∃ m, ride_matches s !! match_id = Some m ∧
       s' = with_matches (<[match_id := RideMatch.set_status next_status m]>
                            (ride_matches s)) s.
Proof.
  unfold update_match_status, select_match. tx_unfold.
  case_bool_decide; [done|].
  destruct (ride_matches s !! match_id) as [m|] eqn:Hm; simpl; [|done].
  rw !select_participant_one /=.
  destruct (allowed _ _ _ _); simpl; [|done].
  destruct (bool_decide (next_status = _)) eqn:Hnext; simpl.
  - destruct (_ensure_compatible_and_seat_cases (RideMatch.event_id m)
                (RideMatch.driver_participant_id m) (RideMatch.rider_participant_id m) s)
      as [[e He]|He]; rw He; simpl; [done|].
    intros [= <- <-]. by exists m.
  - intros [= <- <-]. by exists m.
Qed.

Lemma step_matches op s : matches_step s (step op s).
Proof.
  destruct op; simpl;
    match goal with |- context [commit ?m s] =>
      destruct (commit_cases m s) as [[x Hx]|Hx];
        [|rw Hx; by apply matches_step_same] end.
  - destruct x as [id p'].
    apply join_event_return in Hx as (-> & _). by apply matches_step_same.
  - destruct x as [id p'].
    apply leave_event_return in Hx as (p & _ & _ & Hs').
    apply (matches_step_cancel _ _ event_id id).
    by destruct Hs' as [[-> _]|(oid & o & ev & c & _ & _ & _ & _ & _ & _ & ->)].
  - destruct x as [id p'].
    apply update_my_participation_return in Hx
      as (p & _ & _ & _ & _ & _ & _ & _ & _ & _ & _ & _ & _ & _ & Hms).
    revert Hms. case_bool_decide; intros Hms.
    + by apply matches_step_same.
    + by apply (matches_step_cancel _ _ event_id id).
  - apply set_participant_status_return in Hx as (p & _ & ->). by apply matches_step_same.
  - apply create_match_return in Hx as (Hc & Hnew & ->).
    by eapply matches_step_add.
  - apply update_match_status_return in Hx as (m & Hm & ->).
    by eapply matches_step_write.
Qed.

Lemma api_step_matches op s : matches_step s (api_step op s).
Proof.
  destruct op as [op|payload u new_id|e u]; simpl.
  - apply step_matches.
  - apply matches_step_same.
    unfold commit, transaction, create_event, add_event. tx_unfold. simpl.
    destruct (if payload_capacity payload is Some c then bool_decide (int4 c) else true);
      [|done].
    by destruct (events s !! new_id).
  - apply matches_step_same.
    unfold commit, transaction, publish_event, write_event. tx_unfold.
    rw select_event_lookup.
    destruct (events s !! e) as [ev|]; simpl; [|done].
    by case_bool_decide.
Qed.

Lemma api_step_participant_kept op s id p :
  event_participants s !! id = Some p →
  ∃ p', event_participants (api_step op s) !! id = Some p' ∧
        EventParticipant.event_id p' = EventParticipant.event_id p ∧
        EventParticipant.user_id p' = EventParticipant.user_id p.
Proof.
  intros Hp. destruct (api_step_rows op s) as [_ [Hr|[_ Ha]]].
  - specialize (Hr id). rw Hp in Hr.
    destruct (event_participants (api_step op s) !! id) as [p'|]; [|done].
    destruct Hr as (He & Hu & _). by exists p'.
  - destruct Ha as (new & q & Hnew & -> & _). exists p.
    rw lookup_insert_ne; [congruence|]. done.
Qed.

Lemma api_step_matches_hosted op s : matches_hosted s → matches_hosted (api_step op s).
Proof.
  intros Hinv id m' Hm'.
  assert (RideMatch.driver_participant_id m' ≠ RideMatch.rider_participant_id m' ∧
          ∃ d r,
            event_participants s !! RideMatch.driver_participant_id m' = Some d ∧
            EventParticipant.event_id d = RideMatch.event_id m' ∧
            event_participants s !! RideMatch.rider_participant_id m' = Some r ∧
            EventParticipant.event_id r = RideMatch.event_id m')
    as (Hne & d & r & Hd & Hde & Hr & Hre).
  { destruct (api_step_matches op s) as [_ Hback].
    destruct (Hback id m' Hm') as [(m & Hm & He & Hdr & Hri & _)|Hc].
    - rw He Hdr Hri. by apply (Hinv id m).
    - destruct Hc as (d & r & Hd & Hde & Hr & Hre & Hne & _). split; [done|].
      by exists d, r. }
  split; [done|].
  destruct (api_step_participant_kept op s _ d Hd) as (d' & Hd' & Hde' & _).
  destruct (api_step_participant_kept op s _ r Hr) as (r' & Hr' & Hre' & _).
  exists d', r'. split; [done|]. split; [congruence|]. split; [done|]. congruence.
Qed.

Lemma api_run_matches_kept ops s id m :
  ride_matches s !! id = Some m →
  ∃ m', ride_matches (api_run ops s) !! id = Some m' ∧ same_ends m m'.
Proof.
  revert s m. induction ops as [|op ops IH]; intros s m Hm.
  - exists m. split; [done|apply same_ends_refl].
  - simpl. destruct (api_step_matches op s) as [Hfwd _].
    destruct (Hfwd id m Hm) as (m1 & Hm1 & H1).
    destruct (IH _ _ Hm1) as (m2 & Hm2 & H2). exists m2. split; [done|].
    unfold same_ends in *. destruct H1 as (? & ? & ? & ? & ?), H2 as (? & ? & ? & ? & ?).
    split_and!; congruence.
Qed.

(** X30.  No call of the interface deletes a match or changes its event,
    its driver, its rider, its proposer or its time of creation; and after
    every sequence of calls every match joins two different participants
    that exist and are in the event of the match, if that held before. *)
Theorem matches_hosted_always ops s :
  matches_hosted s →
  matches_hosted (api_run ops s) ∧
  ∀ id m, ride_matches s !! id = Some m →
    ∃ m', ride_matches (api_run ops s) !! id = Some m' ∧ same_ends m m'.
Proof.
  intros Hinv. split.
  - revert s Hinv. induction ops as [|op ops IH]; intros s Hinv; [done|].
    simpl. by apply IH, api_step_matches_hosted.
  - intros id m. apply api_run_matches_kept.
Qed.

Lemma matches_hosted_empty s : ride_matches s = ∅ → matches_hosted s.
Proof. intros Hms id m. by rw Hms lookup_empty. Qed.

Lemma matches_hosted_always_witness : matches_hosted (api_run two_event_ops s_empty).
Proof.
  exact (proj1 (matches_hosted_always two_event_ops s_empty
                  (matches_hosted_empty s_empty eq_refl))).
Defined.

(** * The services as shipped *)

(** ** What each service does with the rows of its queries *)

Lemma stock_join_event_cases event_id user_id ride_mode seats_offered pickup_area notes
    new_id now s :
  Stock.join_event event_id user_id ride_mode seats_offered pickup_area notes new_id now s
  = match events s !! event_id with
    | None => (Raise (HTTPException 404 "Event not found"), s)
    | Some _ => (Raise (AttributeError "status"), s)
    end.
Proof.
  unfold Stock.join_event, select_event. stock_unfold.
  by destruct (events s !! event_id).
Qed.

Lemma stock_leave_event_cases event_id user_id s :
  Stock.leave_event event_id user_id s
  = match select_participants (is_of_user event_id user_id) s with
    | [] => (Raise (HTTPException 404 "Not joined"), s)
    | [_] => (Raise (AttributeError "status"), s)
    | _ :: _ :: _ => (Raise MultipleResultsFound, s)
    end.
Proof.
  unfold Stock.leave_event. stock_unfold.
  by destruct (select_participants _ s) as [|r [|r' rows]].
Qed.

Lemma stock_update_my_participation_cases event_id user_id ride_mode seats_offered
    pickup_area notes s :
  Stock.update_my_participation event_id user_id ride_mode seats_offered pickup_area
    notes s
  = match select_participants (is_of_user event_id user_id) s with
    | [] => (Raise (HTTPException 404 "Not joined"), s)
    | [_] => (Raise (AttributeError "status"), s)
    | _ :: _ :: _ => (Raise MultipleResultsFound, s)
    end.
Proof.
  unfold Stock.update_my_participation. stock_unfold.
  by destruct (select_participants _ s) as [|r [|r' rows]].
Qed.

Lemma stock_set_participant_status_cases event_id organizer_id participant_id
    next_status s :
  Stock.set_participant_status event_id organizer_id participant_id next_status s
  = if bool_decide (next_status ≠ ParticipationStatus.APPROVED ∧
                    next_status ≠ ParticipationStatus.REJECTED)
    then (Raise (HTTPException 400 "Invalid status change"), s)
    else match events s !! event_id with
         | None => (Raise (HTTPException 404 "Event not found"), s)
         | Some _ => (Raise (AttributeError "created_by"), s)
         end.
Proof.
  unfold Stock.set_participant_status, select_event. stock_unfold.
  case_bool_decide; [done|]. by destruct (events s !! event_id).
Qed.

Lemma stock__ensure_organizer_cases event_id user_id s :
  Stock._ensure_organizer event_id user_id s
  = match events s !! event_id with
    | None => (Raise (HTTPException 404 "Event not found"), s)
    | Some _ => (Raise (AttributeError "created_by"), s)
    end.
Proof.
  unfold Stock._ensure_organizer, select_event. stock_unfold.
  by destruct (events s !! event_id).
Qed.

Lemma stock__ensure_compatible_and_seat_cases event_id driver_pid rider_pid s :
  Stock._ensure_compatible_and_seat event_id driver_pid rider_pid s
  = match select_participant_in driver_pid event_id s,
          select_participant_in rider_pid event_id s with
    | [_], [_] => (Raise (AttributeError "id"), s)
    | _, _ => (Raise (HTTPException 404 "Driver or rider not found"), s)
    end.
Proof.
  unfold Stock._ensure_compatible_and_seat, select_participant_in. stock_unfold.
  destruct (event_participants s !! driver_pid) as [d|],
    (event_participants s !! rider_pid) as [r|]; simpl;
    repeat case_bool_decide; done.
Qed.

Lemma stock_create_match_raises event_id created_by driver_pid rider_pid new_id now s :
  ∃ e, Stock.create_match event_id created_by driver_pid rider_pid new_id now s
       = (Raise e, s).
Proof.
  unfold Stock.create_match. unfold bind at 1.
  rw stock__ensure_compatible_and_seat_cases.
  destruct (select_participant_in driver_pid event_id s) as [|? [|? ?]],
    (select_participant_in rider_pid event_id s) as [|? [|? ?]]; eauto.
Qed.

Lemma stock_update_match_status_cases match_id user_id next_status s :
  Stock.update_match_status match_id user_id next_status s
  = if bool_decide (next_status ≠ RideMatchStatus.ACCEPTED ∧
                    next_status ≠ RideMatchStatus.REJECTED ∧
                    next_status ≠ RideMatchStatus.CANCELED)
    then (Raise (HTTPException 400 "Invalid next status"), s)
    else match ride_matches s !! match_id with
         | None => (Raise (HTTPException 404 "Match not found"), s)
         | Some _ => (Raise (AttributeError "driver_participant_id"), s)
         end.
Proof.
  unfold Stock.update_match_status, select_match. stock_unfold.
  case_bool_decide; [done|]. by destruct (ride_matches s !! match_id).
Qed.

Lemma stock_commit_raise {A} (m : Tx A) s : (∃ e s', m s = (Raise e, s')) → commit m s = s.
Proof. intros (e & s' & Hm). unfold commit, transaction. by rw Hm. Qed.

Lemma stock_step_unchanged op s : Stock.step op s = s.
Proof.
  destruct op; simpl; apply stock_commit_raise.
  - rw stock_join_event_cases. destruct (events s !! event_id); eauto.
  - rw stock_leave_event_cases.
    destruct (select_participants _ s) as [|r [|r' rows]]; eauto.
  - rw stock_update_my_participation_cases.
    destruct (select_participants _ s) as [|r [|r' rows]]; eauto.
  - rw stock_set_participant_status_cases.
    case_bool_decide; [eauto|]. destruct (events s !! event_id); eauto.
  - destruct (stock_create_match_raises event_id created_by driver_pid rider_pid
                new_id now s) as [e He]. eauto.
  - rw stock_update_match_status_cases.
    case_bool_decide; [eauto|]. destruct (ride_matches s !! match_id); eauto.
Qed.

Lemma stock_api_step_tables op s :
  event_participants (Stock.api_step op s) = event_participants s ∧
  ride_matches (Stock.api_step op s) = ride_matches s.
Proof.
  destruct op as [op|payload u new_id|e u]; simpl.
  - by rw stock_step_unchanged.
  - unfold commit, transaction, create_event, add_event. tx_unfold. simpl.
    destruct (if payload_capacity payload is Some c then bool_decide (int4 c) else true);
      [|done].
    by destruct (events s !! new_id).
  - unfold commit, transaction, publish_event, write_event. tx_unfold.
    rw select_event_lookup. destruct (events s !! e) as [ev|]; simpl; [|done].
    by case_bool_decide.
Qed.

Lemma stock_api_run_tables ops s :
  event_participants (Stock.api_run ops s) = event_participants s ∧
  ride_matches (Stock.api_run ops s) = ride_matches s.
Proof.
  revert s. induction ops as [|op ops IH]; intros s; [done|].
  simpl. destruct (IH (Stock.api_step op s)) as [-> ->].
  apply stock_api_step_tables.
Qed.

Lemma stock_api_step_refines op s :
  Stock.api_step op s = s ∨ Stock.api_step op s = api_step op s.
Proof.
  destruct op as [op|payload u new_id|e u]; simpl; [left|by right|by right].
  apply stock_step_unchanged.
Qed.

(** ** The seats of a driver *)




(** ** Joining *)

(** C3.  As shipped, [join_event] resolves no status: for every event
    that exists, whatever its policy, capacity and occupancy and whatever
    the ride fields, the read of [event.status] on the row of the query
    raises [AttributeError], and nothing is written. *)
Theorem shipped_join_raises_on_existing_event event_id user_id ride_mode seats_offered
    pickup_area notes new_id now s event :
  events s !! event_id = Some event →
  Stock.join_event event_id user_id ride_mode seats_offered pickup_area notes new_id now s
    = (Raise (AttributeError "status"), s) ∧
  Stock.step (Join event_id user_id ride_mode seats_offered pickup_area notes new_id now) s
    = s.
Proof.
  intros Hev. split; [|apply stock_step_unchanged].
  by rw stock_join_event_cases Hev.
Qed.

Lemma shipped_join_raises_on_existing_event_witness :
  events s_published !! 1%N = Some ev_open_cap1 ∧
  Stock.join_event 1%N 10%N RideMode.NONE (Some 0) None None 1001%N 1 s_published
    = (Raise (AttributeError "status"), s_published).
Proof.
  split; [vm_compute; reflexivity|].
  exact (proj1 (shipped_join_raises_on_existing_event 1%N 10%N RideMode.NONE (Some 0)
                  None None 1001%N 1 s_published ev_open_cap1
                  ltac:(vm_compute; reflexivity))).
Defined.

Lemma attribute_error_not_validation_error name :
  ¬ is_validation_error (AttributeError name).
Proof.
  intros (rm & so & H). revert H. unfold _normalize_ride.
  by repeat case_bool_decide.
Qed.

(** C7.  As shipped, a join with invalid ride fields on a PUBLISHED event
    does not fail with the validation error of the ride fields: it raises
    [AttributeError] at [event.status], before [_normalize_ride] is
    reached, which is no error of [_normalize_ride] and no response of
    status 400; nothing is written. *)
Theorem shipped_join_invalid_ride_raises s event_id user_id ride_mode seats_offered
    pickup_area notes new_id now event :
  events s !! event_id = Some event →
  Event.status event = EventStatus.PUBLISHED →
  ride_fields_invalid ride_mode seats_offered →
  (∃ detail, _normalize_ride ride_mode seats_offered = Raise (HTTPException 400 detail)) ∧
  ∃ e,
    Stock.join_event event_id user_id ride_mode seats_offered pickup_area notes new_id
      now s = (Raise e, s) ∧
    ¬ is_validation_error e ∧
    ¬ is_bad_request e.
Proof.
  intros Hev _ Hinv. split; [by apply _normalize_ride_invalid|].
  exists (AttributeError "status"). split; [by rw stock_join_event_cases Hev|].
  split; [apply attribute_error_not_validation_error|by intros [detail ?]].
Qed.

Lemma shipped_join_invalid_ride_raises_witness :
  ∃ e,
    Stock.join_event 1%N 10%N RideMode.NEED (Some 3) None None 1001%N 1 s_published
      = (Raise e, s_published) ∧
    ¬ is_validation_error e ∧
    ¬ is_bad_request e.
Proof.
  refine (proj2 (shipped_join_invalid_ride_raises s_published 1%N 10%N RideMode.NEED
                   (Some 3) None None 1001%N 1 ev_open_cap1 _ _ _)).
  - vm_compute. reflexivity.
  - reflexivity.
  - right. split; [discriminate|]. simpl. lia.
Defined.

(** ** Leaving *)

(** C5.  As shipped, [leave_event] of a user who has joined promotes
    nobody: the assignment [p.status = CANCELED] on the row of the query
    raises [AttributeError] before any match is canceled and before the
    promotion is looked at, and nothing is written, so the leaver keeps
    his status and every PENDING participant stays PENDING. *)
Theorem shipped_leave_raises_before_promotion event_id user_id s id p :
  select_participants (is_of_user event_id user_id) s = [(id, p)] →
  Stock.leave_event event_id user_id s = (Raise (AttributeError "status"), s) ∧
  Stock.step (Leave event_id user_id) s = s.
Proof.
  intros Hrow. split; [|apply stock_step_unchanged].
  by rw stock_leave_event_cases Hrow.
Qed.

Lemma shipped_leave_raises_before_promotion_witness :
  Stock.leave_event 1%N 10%N s_one_pending
    = (Raise (AttributeError "status"), s_one_pending) ∧
  EventParticipant.status <$> event_participants (Stock.step (Leave 1 10) s_one_pending)
                                !! 1002%N
    = Some ParticipationStatus.PENDING.
Proof.
  destruct (shipped_leave_raises_before_promotion 1%N 10%N s_one_pending 1001%N
              (approved_none 1 10 1) ltac:(vm_compute; reflexivity)) as [Hraise Hstep].
  split; [exact Hraise|]. by rw Hstep.
Defined.

(** ** The status of the event *)








(** ** Matches *)

(** C4.  As shipped, a match that exists is never accepted: whoever
    calls and whatever the participants and the seats,
    [update_match_status] raises [AttributeError] at the read of
    [m.driver_participant_id] on the row of the query, before the
    authorisation and before the compatibility and seat check, and the
    status of the match stays. *)
Theorem shipped_accept_raises_on_existing_match match_id user_id s m :
  ride_matches s !! match_id = Some m →
  Stock.update_match_status match_id user_id RideMatchStatus.ACCEPTED s
    = (Raise (AttributeError "driver_participant_id"), s) ∧
  ride_matches (Stock.step (UpdateMatchStatus match_id user_id RideMatchStatus.ACCEPTED) s)
    !! match_id = Some m.
Proof.
  intros Hm. split; [|by rw stock_step_unchanged].
  rw stock_update_match_status_cases Hm. by rw bool_decide_eq_false_2; [intros (? & _)|].
Qed.

Lemma shipped_accept_raises_on_existing_match_witness :
  Stock.update_match_status 2001%N 11%N RideMatchStatus.ACCEPTED s_one_proposed
    = (Raise (AttributeError "driver_participant_id"), s_one_proposed).
Proof.
  exact (proj1 (shipped_accept_raises_on_existing_match 2001%N 11%N s_one_proposed
                  (match_row 1 1001 1002 RideMatchStatus.PROPOSED 10 3)
                  ltac:(vm_compute; reflexivity))).
Defined.

(** ** The organizer *)

(** C10.  As shipped, [set_participant_status] with target APPROVED or
    REJECTED sets no status: for every event that exists, whoever calls
    and whether the participant exists or not, the read of
    [event.created_by] on the row of the query raises [AttributeError], and
    nothing is written. *)
Theorem shipped_set_participant_status_raises event_id organizer_id participant_id
    next_status s event :
  events s !! event_id = Some event →
  next_status = ParticipationStatus.APPROVED ∨
    next_status = ParticipationStatus.REJECTED →
  Stock.set_participant_status event_id organizer_id participant_id next_status s
    = (Raise (AttributeError "created_by"), s) ∧
  Stock.step (SetParticipantStatus event_id organizer_id participant_id next_status) s
    = s.
Proof.
  intros Hev Hnext. split; [|apply stock_step_unchanged].
  rw stock_set_participant_status_cases Hev.
  rw bool_decide_eq_false_2; [by intros [? ?]; destruct Hnext|]. done.
Qed.

Lemma shipped_set_participant_status_raises_witness :
  event_participants s_open_left !! 1001%N = Some (canceled_none 1 10 1) ∧
  Stock.set_participant_status 1%N 100%N 1001%N ParticipationStatus.APPROVED s_open_left
    = (Raise (AttributeError "created_by"), s_open_left).
Proof.
  split; [vm_compute; reflexivity|].
  exact (proj1 (shipped_set_participant_status_raises 1%N 100%N 1001%N
                  ParticipationStatus.APPROVED s_open_left ev_open_cap1
                  ltac:(vm_compute; reflexivity) (or_introl eq_refl))).
Defined.

(** ** Statistics and suggestions *)

(** C6.  As shipped, [event_stats] returns no count: for every event and
    on any tables its first [int(session.exec(...).one())] is [int] of a
    row and raises [TypeError]. *)
Theorem shipped_event_stats_raises event_id s :
  Stock.event_stats event_id s = (Raise TypeError, s).
Proof. unfold Stock.event_stats. stock_unfold. done. Qed.

Lemma stock_suggestions_for_cons s event_id fuel d drivers riders rider_idx out :
  Stock.suggestions_for s event_id fuel (Stock.Row d :: drivers) riders rider_idx out
  = Some (Raise (AttributeError "id")).
Proof. done. Qed.

(** C9.  As shipped, [suggestions] pairs nobody: it returns the empty
    list when the event has no APPROVED participant who offers a ride, and
    otherwise raises [AttributeError] at the read of [d.id] on the row of
    the first driver.  On the drivers D1 (one seat) and D2 (two seats) and
    the riders R1, R2, R3 it raises. *)
Theorem shipped_suggestions_raise_on_first_driver event_id s :
  Stock.suggestions event_id s
    = (if select_participants (is_approved_mode_in event_id RideMode.OFFER) s is []
       then Some (Return [])
       else Some (Raise (AttributeError "id"))) ∧
  Stock.suggestions 1%N s_planner = Some (Raise (AttributeError "id")).
Proof.
  split; [|vm_compute; reflexivity].
  unfold Stock.suggestions, suggestions_drivers, order_by_created_at.
  pose proof (merge_sort_Permutation created_le
                (select_participants (is_approved_mode_in event_id RideMode.OFFER) s))
    as Hperm.
  destruct (select_participants (is_approved_mode_in event_id RideMode.OFFER) s)
    as [|d ds] eqn:Hsel.
  - apply Permutation_nil_r in Hperm. by rw Hperm.
  - destruct (merge_sort created_le (d :: ds)) as [|d' ds'] eqn:Hsort.
    + apply Permutation_nil_l in Hperm. done.
    + done.
Qed.

(** ** Further properties of the shipped services *)

(** X31.  As shipped, no call of the six services writes: each call,
    committed or rolled back, leaves the three tables as they are, and so
    does every sequence of calls; with the two routes on events among
    them, participants and matches stay as they are. *)
Theorem shipped_services_never_write :
  (∀ op s, Stock.step op s = s) ∧
  (∀ ops s, Stock.run ops s = s) ∧
  (∀ ops s, event_participants (Stock.api_run ops s) = event_participants s ∧
            ride_matches (Stock.api_run ops s) = ride_matches s).
Proof.
  split; [apply stock_step_unchanged|]. split; [|apply stock_api_run_tables].
  intros ops. induction ops as [|op ops IH]; intros s; [done|].
  simpl. by rw stock_step_unchanged.
Qed.

Lemma shipped_calls_refine_aux ops s :
  ∃ ops', ops' `sublist_of` ops ∧ Stock.api_run ops s = api_run ops' s.
Proof.
  revert s. induction ops as [|op ops IH]; intros s.
  - by exists [].
  - simpl. destruct (stock_api_step_refines op s) as [Hs|Hs]; rw Hs.
    + destruct (IH s) as (ops' & Hsub & ->). exists ops'. split; [by constructor|done].
    + destruct (IH (api_step op s)) as (ops' & Hsub & ->). exists (op :: ops').
      split; [by constructor|done].
Qed.

(** X32.  Every state that a sequence of calls reaches as shipped is
    reached by calls of that sequence read with the mapped objects: a
    shipped call either changes nothing or is the call of [app/main.py] on
    events, which is the same in both.  So what holds after every sequence
    of calls read with the mapped objects holds after every sequence of
    calls as shipped: the check and the unique constraint of the
    participants, and that every participant is in an event that is no
    DRAFT. *)
Theorem shipped_calls_refine ops s :
  (∃ ops', ops' `sublist_of` ops ∧ Stock.api_run ops s = api_run ops' s) ∧
  (rows_checked s → rows_checked (Stock.api_run ops s)) ∧
  (rows_unique s → rows_unique (Stock.api_run ops s)) ∧
  (rows_hosted s → rows_hosted (Stock.api_run ops s)).
Proof.
  split; [apply shipped_calls_refine_aux|].
  destruct (shipped_calls_refine_aux ops s) as (ops' & _ & ->).
  split; [apply api_run_rows_checked|]. split; [|apply api_run_rows_hosted].
  intros Hinv. revert s Hinv. induction ops' as [|op ops'' IH]; intros s Hinv; [done|].
  simpl. by apply IH, api_step_rows_unique.
Qed.

Lemma stock_api_run_rows_hosted ops s :
  rows_hosted s → rows_hosted (Stock.api_run ops s).
Proof.
  intros Hinv. destruct (shipped_calls_refine_aux ops s) as (ops' & _ & ->).
  by apply api_run_rows_hosted.
Qed.

(** X13.  As shipped, [update_match_status] refuses PROPOSED as next
    status with 400 "Invalid next status", whether the match exists or
    not, and an unknown match with 404 "Match not found"; for a match that
    exists it raises [AttributeError] whoever calls and whatever the next
    status, so that 403 "Forbidden" is never its answer and no match is
    rejected or canceled either.  Nothing is written. *)
Theorem shipped_update_match_status_refusals match_id user_id next_status s :
  Stock.update_match_status match_id user_id next_status s
    = (Raise (if bool_decide (next_status = RideMatchStatus.PROPOSED)
              then HTTPException 400 "Invalid next status"
              else if ride_matches s !! match_id is Some _
                   then AttributeError "driver_participant_id"
                   else HTTPException 404 "Match not found"), s) ∧
  Stock.update_match_status match_id user_id next_status s
    ≠ (Raise (HTTPException 403 "Forbidden"), s).
Proof.
  assert (Stock.update_match_status match_id user_id next_status s
          = (Raise (if bool_decide (next_status = RideMatchStatus.PROPOSED)
                    then HTTPException 400 "Invalid next status"
                    else if ride_matches s !! match_id is Some _
                         then AttributeError "driver_participant_id"
                         else HTTPException 404 "Match not found"), s)) as Heq.
  { rw stock_update_match_status_cases.
    destruct next_status; simpl; try done.
    all: by destruct (ride_matches s !! match_id). }
  split; [done|]. rw Heq.
  case_bool_decide; [done|]. by destruct (ride_matches s !! match_id).
Qed.

(** X14.  As shipped, [list_participants] lists nobody: an unknown event
    gives 404 "Event not found", and for every event that exists the read
    of [event.created_by] in [_ensure_organizer] raises [AttributeError],
    for the organizer as for anyone else. *)
Theorem shipped_list_participants_raises event_id organizer_id s :
  Stock.list_participants event_id organizer_id s
    = (Raise (if events s !! event_id is Some _
              then AttributeError "created_by"
              else HTTPException 404 "Event not found"), s) ∧
  Stock._ensure_organizer event_id organizer_id s
    = (Raise (if events s !! event_id is Some _
              then AttributeError "created_by"
              else HTTPException 404 "Event not found"), s).
Proof.
  unfold Stock.list_participants. unfold bind at 1.
  rw stock__ensure_organizer_cases. by destruct (events s !! event_id).
Qed.

(** X20.  An event that is still a DRAFT has no participant in any state
    that calls reach as shipped, from a state where every participant is
    in an event that is no DRAFT: the leave and the update of any user are
    refused with 404 "Not joined" and change nothing. *)
Theorem shipped_draft_event_closed ops s event_id ev :
  rows_hosted s →
  events (Stock.api_run ops s) !! event_id = Some ev →
  Event.status ev = EventStatus.DRAFT →
  let s' := Stock.api_run ops s in
  select_participants (is_in_event event_id) s' = [] ∧
  (∀ user_id,
     Stock.leave_event event_id user_id s'
       = (Raise (HTTPException 404 "Not joined"), s')) ∧
  (∀ user_id ride_mode seats_offered pickup_area notes,
     Stock.update_my_participation event_id user_id ride_mode seats_offered
       pickup_area notes s' = (Raise (HTTPException 404 "Not joined"), s')).
Proof.
  intros Hinv Hev Hst s'.
  assert (rows_hosted s') as Hinv' by by apply stock_api_run_rows_hosted.
  pose proof (rows_hosted_draft s' event_id ev Hinv' Hev Hst) as Hnil.
  split; [done|]. split.
  - intros. by rw stock_leave_event_cases (select_participants_of_user_nil _ _ user_id Hnil).
  - intros. by rw stock_update_my_participation_cases
                  (select_participants_of_user_nil _ _ user_id Hnil).
Qed.

Lemma shipped_draft_event_closed_witness :
  Stock.leave_event 1%N 10%N s_draft = (Raise (HTTPException 404 "Not joined"), s_draft).
Proof.
  exact (proj1 (proj2 (shipped_draft_event_closed
                         [CreateEvent (mkEventCreate (Some 1) EventJoinPolicy.OPEN)
                            100%N 1%N]
                         s_empty 1%N
                         (Event.mk 100%N (Some 1) EventJoinPolicy.OPEN EventStatus.DRAFT)
                         (rows_hosted_empty s_empty eq_refl)
                         ltac:(vm_compute; reflexivity) eq_refl)) 10%N).
Defined.



Lemma stock__resolve_join_status_mapped event approved_count :
  Stock._resolve_join_status (Stock.Mapped event) approved_count
  = _resolve_join_status event approved_count.
Proof.
  unfold Stock._resolve_join_status, _resolve_join_status, is_full. simpl.
  repeat case_bool_decide; try done.
  all: destruct (Event.join_policy event), (Event.capacity event); simpl; try done.
  all: repeat case_bool_decide; try done; lia.
Qed.

(** X23.  The first check of [join_event] holds as shipped: an unknown
    event gives 404 "Event not found" and nothing is written.  The second
    check of [_resolve_join_status] is never reached: called with an
    [Event] or with a row, it raises 400 "Event is canceled" for no event,
    since a CANCELED event is not PUBLISHED and is refused before. *)
Theorem shipped_join_event_checks event_id user_id ride_mode seats_offered pickup_area
    notes new_id now s :
  (events s !! event_id = None →
   Stock.join_event event_id user_id ride_mode seats_offered pickup_area notes new_id
     now s = (Raise (HTTPException 404 "Event not found"), s)) ∧
  (∀ event approved_count,
     Stock._resolve_join_status event approved_count
       ≠ Raise (HTTPException 400 "Event is canceled")) ∧
  (∀ event approved_count,
     Event.status event = EventStatus.CANCELED →
     Stock._resolve_join_status (Stock.Mapped event) approved_count
       = Raise (HTTPException 400 "Event is not published")).
Proof.
  split_and!.
  - intros Hnone. by rw stock_join_event_cases Hnone.
  - intros [event|event] n; [|done].
    unfold Stock._resolve_join_status. simpl.
    destruct (Event.status event) eqn:Hst; simpl; try done.
    destruct (Event.join_policy event), (Event.capacity event); simpl; try done.
    all: by case_bool_decide.
  - intros event n Hst. unfold Stock._resolve_join_status. simpl. by rw Hst.
Qed.

(** X24.  As shipped, [set_participant_status] refuses, and writes
    nothing: a target other than APPROVED and REJECTED with 400 "Invalid
    status change", before it looks at the event, and with a target of the
    two an unknown event with 404 "Event not found". *)
Theorem shipped_set_participant_status_refusals event_id organizer_id participant_id
    next_status s :
  (next_status ≠ ParticipationStatus.APPROVED →
   next_status ≠ ParticipationStatus.REJECTED →
   Stock.set_participant_status event_id organizer_id participant_id next_status s
     = (Raise (HTTPException 400 "Invalid status change"), s)) ∧
  (next_status = ParticipationStatus.APPROVED ∨
     next_status = ParticipationStatus.REJECTED →
   events s !! event_id = None →
   Stock.set_participant_status event_id organizer_id participant_id next_status s
     = (Raise (HTTPException 404 "Event not found"), s)).
Proof.
  split.
  - intros H1 H2. rw stock_set_participant_status_cases. by rw bool_decide_eq_true_2.
  - intros Hnext Hev. rw stock_set_participant_status_cases Hev.
    rw bool_decide_eq_false_2; [by intros [? ?]; destruct Hnext|]. done.
Qed.

Lemma _normalize_ride_raise ride_mode seats_offered e :
  _normalize_ride ride_mode seats_offered = Raise e →
  ∃ detail, e = HTTPException 400 detail.
Proof.
  unfold _normalize_ride. repeat case_bool_decide; intros [= <-]; by eexists.
Qed.

(** X33.  [_normalize_ride] returns exactly when the ride fields are not
    invalid, and then the mode as given with the seats as given, or none
    when none are given; what it returns satisfies the check
    [chk_offer_seats] of the table and is returned as it is when
    normalised again; what it raises is a 400. *)
Theorem normalize_ride_table ride_mode seats_offered :
  (¬ ride_fields_invalid ride_mode seats_offered ↔
   _normalize_ride ride_mode seats_offered = Return (ride_mode, default 0 seats_offered)) ∧
  (ride_fields_invalid ride_mode seats_offered ↔
   ∃ detail, _normalize_ride ride_mode seats_offered = Raise (HTTPException 400 detail)) ∧
  (∀ rm so,
     _normalize_ride ride_mode seats_offered = Return (rm, so) →
     ((rm = RideMode.OFFER ∧ 1 ≤ so) ∨ (rm ≠ RideMode.OFFER ∧ so = 0)) ∧
     _normalize_ride rm (Some so) = Return (rm, so)).
Proof.
  split_and!.
  - split.
    + intros Hvalid.
      destruct (_normalize_ride ride_mode seats_offered) as [[rm so]|e] eqn:Hn.
      * apply _normalize_ride_return in Hn as (-> & -> & _). done.
      * exfalso. apply Hvalid, _normalize_ride_invalid.
        destruct (_normalize_ride_raise _ _ _ Hn) as [detail ->]. by exists detail.
    + intros Hret Hinv. apply _normalize_ride_invalid in Hinv as [detail Hd]. congruence.
  - apply _normalize_ride_invalid.
  - intros rm so Hret. split; [by eapply _normalize_ride_chk|].
    apply _normalize_ride_chk in Hret as Hchk. unfold _normalize_ride. simpl.
    destruct Hchk as [[-> Hs]|[Hm ->]].
    + rw bool_decide_eq_true_2 // bool_decide_eq_false_2 //. lia.
    + rw (bool_decide_eq_false_2 _ Hm) bool_decide_eq_false_2 //. by intros ?.
Qed.

(** X34.  [_resolve_join_status], called with an [Event], decides by the
    status, the policy and the occupancy given to it: an event that is not
    PUBLISHED is refused with 400 "Event is not published"; a PUBLISHED one
    is full when its capacity is set and the approved count has reached it;
    under OPEN a full event is refused with 400 "Event is full" and the
    status is APPROVED otherwise, under APPROVAL the status is PENDING in
    any case, under OPEN_UNTIL_CAPACITY_THEN_APPROVAL it is PENDING when
    full and APPROVED otherwise.  Called with a row, as [join_event] calls
    it, it raises [AttributeError]. *)
Theorem resolve_join_status_table event approved_count :
  let r := Stock._resolve_join_status (Stock.Mapped event) approved_count in
  let full := ∃ capacity, Event.capacity event = Some capacity ∧
                          capacity ≤ approved_count in
  (Event.status event ≠ EventStatus.PUBLISHED →
   r = Raise (HTTPException 400 "Event is not published")) ∧
  (Event.status event = EventStatus.PUBLISHED →
   match Event.join_policy event with
   | EventJoinPolicy.OPEN =>
       (full → r = Raise (HTTPException 400 "Event is full")) ∧
       (¬ full → r = Return ParticipationStatus.APPROVED)
   | EventJoinPolicy.APPROVAL => r = Return ParticipationStatus.PENDING
   | EventJoinPolicy.OPEN_UNTIL_CAPACITY_THEN_APPROVAL =>
       (full → r = Return ParticipationStatus.PENDING) ∧
       (¬ full → r = Return ParticipationStatus.APPROVED)
   end) ∧
  Stock._resolve_join_status (Stock.Row event) approved_count
    = Raise (AttributeError "status").
Proof.
  intros r full. subst r. unfold Stock._resolve_join_status. simpl.
  split_and!; [| |done].
  - intros Hst. by rw bool_decide_eq_true_2.
  - intros Hst. rw bool_decide_eq_false_2; [by intros ?|].
    rw bool_decide_eq_false_2; [by rw Hst|].
    assert (full ↔ match Event.capacity event with
                   | Some capacity => bool_decide (capacity ≤ approved_count)
                   | None => false
                   end = true) as Hfull.
    { unfold full. destruct (Event.capacity event) as [c|]; simpl.
      - rw bool_decide_eq_true. split; [by intros (? & [= <-] & ?)|by eauto].
      - split; [by intros (? & ? & ?)|done]. }
    destruct (match Event.capacity event with
              | Some capacity => bool_decide (capacity ≤ approved_count)
              | None => false
              end) eqn:Hb.
    + destruct (Event.join_policy event); [split| |split]; try done.
      all: intros Hn; exfalso; apply Hn; by apply Hfull.
    + destruct (Event.join_policy event); [split| |split]; try done.
      all: intros Hf; apply Hfull in Hf; done.
Qed.
